(** * Resource-list resolution of the create-version action

    A shallow embedding of [parseAndResolveResources] (src/main.ts, lines
    95-164) together with the two external calls it makes, [JSON.parse] and
    [fs.readFile], and the properties the specification states about it.

    JavaScript strings are sequences of UTF-16 code units; they are modelled
    as lists of [N].  Objects produced by [JSON.parse] are finite maps from
    property names to values (a later duplicate key overwrites an earlier
    one). *)

From Stdlib Require Import NArith Ascii String Decimal.
From stdpp Require Import gmap list fin_maps.

Local Open Scope N_scope.

(** ** JavaScript strings *)

Module JsString.

(** A string is the list of its UTF-16 code units. *)
Abbreviation jsstring := (list N).

(** The code units of an ASCII literal. *)
Fixpoint js (s : string) : jsstring :=
  match s with
  | EmptyString => []
  | String c rest => N_of_ascii c :: js rest
  end.

(** [s] between double quotes, as the messages show a name or a path. *)
Definition quoted (s : jsstring) : jsstring := [34] ++ s ++ [34].

(** [WhiteSpace] and [LineTerminator] code points of ECMAScript, the ones
    [String.prototype.trim] strips.  All lie in the basic plane, so the
    test is on a single code unit. *)
Definition is_trim_space (c : N) : bool :=
  (c =? 9) || (c =? 10) || (c =? 11) || (c =? 12) || (c =? 13) ||
  (c =? 32) || (c =? 160) || (c =? 5760) ||
  ((8192 <=? c) && (c <=? 8202)) ||
  (c =? 8232) || (c =? 8233) || (c =? 8239) || (c =? 8287) ||
  (c =? 12288) || (c =? 65279).

Fixpoint trimStart (s : jsstring) : jsstring :=
  match s with
  | [] => []
  | c :: rest => if is_trim_space c then trimStart rest else s
  end.

Definition trimEnd (s : jsstring) : jsstring :=
  rev (trimStart (rev s)).

(** [s.trim()] *)
Definition trim (s : jsstring) : jsstring := trimEnd (trimStart s).

(** [s !== ''] and, for a string, the truth value of [s] itself. *)
Definition nonempty (s : jsstring) : bool :=
  match s with
  | [] => false
  | _ :: _ => true
  end.

(** [a === b] *)
Fixpoint same_text (a b : jsstring) : bool :=
  match a, b with
  | [], [] => true
  | x :: a', y :: b' => (x =? y) && same_text a' b'
  | _, _ => false
  end.

Definition digit_code (d : N) : N := 48 + d.

Fixpoint uint_codes (u : Decimal.uint) : jsstring :=
  match u with
  | Nil => []
  | D0 r => digit_code 0 :: uint_codes r
  | D1 r => digit_code 1 :: uint_codes r
  | D2 r => digit_code 2 :: uint_codes r
  | D3 r => digit_code 3 :: uint_codes r
  | D4 r => digit_code 4 :: uint_codes r
  | D5 r => digit_code 5 :: uint_codes r
  | D6 r => digit_code 6 :: uint_codes r
  | D7 r => digit_code 7 :: uint_codes r
  | D8 r => digit_code 8 :: uint_codes r
  | D9 r => digit_code 9 :: uint_codes r
  end.

(** The text [`${i}`] of an array index: its decimal digits. *)
Definition index_text (i : nat) : jsstring :=
  match Nat.to_uint i with
  | Nil => [digit_code 0]
  | u => uint_codes u
  end.

End JsString.
Import JsString.

(** ** JSON values *)

(** The value [JSON.parse] returns.  A number keeps its lexeme: the code
    only ever asks for the [typeof] of a value, never for the value of a
    number.  An object is the finite map of its own properties. *)
#[local] Unset Elimination Schemes.
Inductive json : Type :=
  | JNull
  | JBool (b : bool)
  | JNumber (lexeme : jsstring)
  | JString (s : jsstring)
  | JArray (items : list json)
  | JObject (fields : gmap jsstring json).
#[local] Set Elimination Schemes.

(** ** [JSON.parse]

    The JSON grammar of ECMA-404, which [JSON.parse] follows, read as a
    pushdown automaton that consumes one code unit per step: a lexer mode,
    what the grammar expects next, and the stack of open arrays and objects.
    Recursion is on the input only, so the parser is total. *)

Module Json.

Definition chr (a : ascii) : N := N_of_ascii a.

(** The code unit of the double quote. *)
Definition quote : N := 34.

(** JSON insignificant whitespace: space, tab, line feed, carriage return. *)
Definition is_ws (c : N) : bool :=
  (c =? 32) || (c =? 9) || (c =? 10) || (c =? 13).

Definition is_digit (c : N) : bool := (48 <=? c) && (c <=? 57).
Definition is_digit19 (c : N) : bool := (49 <=? c) && (c <=? 57).

Definition hex_value (c : N) : option N :=
  if is_digit c then Some (c - 48)
  else if (97 <=? c) && (c <=? 102) then Some (c - 87)
  else if (65 <=? c) && (c <=? 70) then Some (c - 55)
  else None.

(** Where the lexer stands inside a number. *)
Inductive num_state : Type :=
  | NMinus | NZero | NInt | NDot | NFrac | NE | NESign | NExp.

Definition num_accepting (st : num_state) : bool :=
  match st with
  | NZero | NInt | NFrac | NExp => true
  | NMinus | NDot | NE | NESign => false
  end.

Definition num_next (st : num_state) (c : N) : option num_state :=
  match st with
  | NMinus => if c =? chr "0" then Some NZero
              else if is_digit19 c then Some NInt else None
  | NZero => if c =? chr "." then Some NDot
             else if (c =? chr "e") || (c =? chr "E") then Some NE else None
  | NInt => if is_digit c then Some NInt
            else if c =? chr "." then Some NDot
            else if (c =? chr "e") || (c =? chr "E") then Some NE else None
  | NDot => if is_digit c then Some NFrac else None
  | NFrac => if is_digit c then Some NFrac
             else if (c =? chr "e") || (c =? chr "E") then Some NE else None
  | NE => if (c =? chr "+") || (c =? chr "-") then Some NESign
          else if is_digit c then Some NExp else None
  | NESign => if is_digit c then Some NExp else None
  | NExp => if is_digit c then Some NExp else None
  end.

(** Lexer mode; string and number texts are accumulated in reverse. *)
Inductive lex_mode : Type :=
  | LNone
  | LStr (acc : jsstring)
  | LEsc (acc : jsstring)
  | LHex (acc : jsstring) (count : nat) (value : N)
  | LLit (rest : jsstring) (v : json)
  | LNum (st : num_state) (acc : jsstring).

(** An open container: an array with its elements so far (reversed), an
    object between members, an object waiting for the value of key [k]. *)
Inductive frame : Type :=
  | FArr (acc : list json)
  | FObj (m : gmap jsstring json)
  | FObjVal (m : gmap jsstring json) (k : jsstring).

(** What the grammar allows next. *)
Inductive phase : Type :=
  | PValue
  | PFirstElem
  | PFirstKey
  | PKey
  | PColon (k : jsstring)
  | PAfter
  | PDone (v : json).

Record pstate : Type := PState {
  mode : lex_mode;
  expect : phase;
  stack : list frame
}.

Definition value_allowed (ph : phase) : bool :=
  match ph with
  | PValue | PFirstElem => true
  | _ => false
  end.

(** A value is complete: it is the whole text, the next array element, or
    the value of the pending key (a repeated key overwrites). *)
Definition complete (v : json) (st : list frame) : option pstate :=
  match st with
  | [] => Some (PState LNone (PDone v) [])
  | FArr acc :: st' => Some (PState LNone PAfter (FArr (v :: acc) :: st'))
  | FObjVal m k :: st' => Some (PState LNone PAfter (FObj (<[k:=v]> m) :: st'))
  | FObj _ :: _ => None
  end.

Definition finish_string (s : jsstring) (ph : phase) (st : list frame) : option pstate :=
  match ph with
  | PFirstKey | PKey => Some (PState LNone (PColon s) st)
  | PValue | PFirstElem => complete (JString s) st
  | _ => None
  end.

(** One code unit between tokens. *)
Definition step_none (ph : phase) (st : list frame) (c : N) : option pstate :=
  if is_ws c then Some (PState LNone ph st)
  else if c =? quote then
    match ph with
    | PValue | PFirstElem | PFirstKey | PKey => Some (PState (LStr []) ph st)
    | _ => None
    end
  else if c =? chr "[" then
    if value_allowed ph then Some (PState LNone PFirstElem (FArr [] :: st)) else None
  else if c =? chr "{" then
    if value_allowed ph then Some (PState LNone PFirstKey (FObj ∅ :: st)) else None
  else if c =? chr "]" then
    match ph, st with
    | (PFirstElem | PAfter), FArr acc :: st' => complete (JArray (rev acc)) st'
    | _, _ => None
    end
  else if c =? chr "}" then
    match ph, st with
    | (PFirstKey | PAfter), FObj m :: st' => complete (JObject m) st'
    | _, _ => None
    end
  else if c =? chr "," then
    match ph, st with
    | PAfter, FArr _ :: _ => Some (PState LNone PValue st)
    | PAfter, FObj _ :: _ => Some (PState LNone PKey st)
    | _, _ => None
    end
  else if c =? chr ":" then
    match ph, st with
    | PColon k, FObj m :: st' => Some (PState LNone PValue (FObjVal m k :: st'))
    | _, _ => None
    end
  else if negb (value_allowed ph) then None
  else if c =? chr "t" then Some (PState (LLit (js "rue") (JBool true)) ph st)
  else if c =? chr "f" then Some (PState (LLit (js "alse") (JBool false)) ph st)
  else if c =? chr "n" then Some (PState (LLit (js "ull") JNull) ph st)
  else if c =? chr "-" then Some (PState (LNum NMinus [c]) ph st)
  else if c =? chr "0" then Some (PState (LNum NZero [c]) ph st)
  else if is_digit19 c then Some (PState (LNum NInt [c]) ph st)
  else None.

(** The code unit an escape letter stands for. *)
Definition escape_code (c : N) : option N :=
  if c =? quote then Some 34
  else if c =? chr "\" then Some 92
  else if c =? chr "/" then Some 47
  else if c =? chr "b" then Some 8
  else if c =? chr "f" then Some 12
  else if c =? chr "n" then Some 10
  else if c =? chr "r" then Some 13
  else if c =? chr "t" then Some 9
  else None.

Definition step (s : pstate) (c : N) : option pstate :=
  let ph := expect s in
  let st := stack s in
  match mode s with
  | LNone => step_none ph st c
  | LStr acc =>
      if c =? quote then finish_string (rev acc) ph st
      else if c =? chr "\" then Some (PState (LEsc acc) ph st)
      else if c <? 32 then None
      else Some (PState (LStr (c :: acc)) ph st)
  | LEsc acc =>
      if c =? chr "u" then Some (PState (LHex acc 0 0) ph st)
      else match escape_code c with
           | Some e => Some (PState (LStr (e :: acc)) ph st)
           | None => None
           end
  | LHex acc count value =>
      match hex_value c with
      | Some d =>
          let value' := 16 * value + d in
          if (count =? 3)%nat then Some (PState (LStr (value' :: acc)) ph st)
          else Some (PState (LHex acc (S count) value') ph st)
      | None => None
      end
  | LLit rest v =>
      match rest with
      | [] => None
      | e :: rest' =>
          if c =? e then
            match rest' with
            | [] => complete v st
            | _ :: _ => Some (PState (LLit rest' v) ph st)
            end
          else None
      end
  | LNum ns acc =>
      match num_next ns c with
      | Some ns' => Some (PState (LNum ns' (c :: acc)) ph st)
      | None =>
          if num_accepting ns then
            match complete (JNumber (rev acc)) st with
            | Some s' => step_none (expect s') (stack s') c
            | None => None
            end
          else None
      end
  end.

Fixpoint run (s : pstate) (text : jsstring) : option pstate :=
  match text with
  | [] => Some s
  | c :: rest =>
      match step s c with
      | Some s' => run s' rest
      | None => None
      end
  end.

(** The value at the end of the text, when the text is a complete JSON
    text. *)
Definition finish (s : pstate) : option json :=
  match mode s, expect s with
  | LNone, PDone v => Some v
  | LNum ns acc, _ =>
      if num_accepting ns then
        match complete (JNumber (rev acc)) (stack s) with
        | Some (PState LNone (PDone v) _) => Some v
        | _ => None
        end
      else None
  | _, _ => None
  end.

(** [JSON.parse(text)]: [None] stands for the [SyntaxError] it throws. *)
Definition parse (text : jsstring) : option json :=
  match run (PState LNone PValue []) text with
  | Some s => finish s
  | None => None
  end.

End Json.

(** ** The world the function runs in

    The function makes two kinds of external calls, [JSON.parse] and
    [fs.readFile].  The world holds the file system as the outcome of
    reading each path, and the calls made so far, oldest first. *)

Inductive read_result : Type :=
  | ReadOk (text : jsstring)
  | ReadErr (cause : jsstring).

Inductive event : Type :=
  | ParseCall (text : jsstring)
  | ReadCall (path : jsstring).

Record World : Type := mkWorld {
  files : jsstring -> read_result;
  calls : list event
}.

Definition record_call (e : event) (w : World) : World :=
  {| files := files w; calls := calls w ++ [e] |}.

(** A computation returns a value or throws [new Error(message)]. *)
Inductive outcome (A : Type) : Type :=
  | Returned (a : A)
  | Thrown (message : jsstring).
Arguments Returned {A} a.
Arguments Thrown {A} message.

Definition M (A : Type) : Type := World -> outcome A * World.

Definition ret {A} (a : A) : M A := fun w => (Returned a, w).

Definition throw {A} (message : jsstring) : M A := fun w => (Thrown message, w).

Definition bind {A B} (m : M A) (k : A -> M B) : M B :=
  fun w =>
    match m w with
    | (Returned a, w') => k a w'
    | (Thrown message, w') => (Thrown message, w')
    end.

Notation "'do' x <- m ; k" := (bind m (fun x => k))
  (at level 10, x name, m at level 100, k at level 200).

(** [JSON.parse(text)] inside [try]: [None] is the branch the [catch]
    takes. *)
Definition JSON_parse (text : jsstring) : M (option json) :=
  fun w => (Returned (Json.parse text), record_call (ParseCall text) w).

(** [fs.readFile(path, 'utf8')] inside [try]: [ReadErr cause] is the branch
    the [catch] takes, [cause] being the text of
    [err instanceof Error ? err.message : err]. *)
Definition readFile (path : jsstring) : M read_result :=
  fun w => (Returned (files w path), record_call (ReadCall path) w).

(** ** [parseAndResolveResources] *)

Record Resource : Type := mkResource {
  name : jsstring;
  content : jsstring;
  visibleToCustomers : bool
}.

Inductive js_type : Type :=
  | TUndefined | TObject | TBoolean | TNumber | TString.

Definition js_type_eqb (a b : js_type) : bool :=
  match a, b with
  | TUndefined, TUndefined | TObject, TObject | TBoolean, TBoolean
  | TNumber, TNumber | TString, TString => true
  | _, _ => false
  end.

(** [typeof v]; [None] is [undefined], the value of a missing property. *)
Definition typeof (v : option json) : js_type :=
  match v with
  | None => TUndefined
  | Some JNull => TObject
  | Some (JBool _) => TBoolean
  | Some (JNumber _) => TNumber
  | Some (JString _) => TString
  | Some (JArray _) => TObject
  | Some (JObject _) => TObject
  end.

(** [item.key], for the items that reach a property access: plain objects
    from [JSON.parse], whose prototype has none of the keys read here. *)
Definition get (item : json) (key : jsstring) : option json :=
  match item with
  | JObject fields => fields !! key
  | _ => None
  end.

(** [typeof item !== 'object' || item === null || Array.isArray(item)] *)
Definition not_plain_object (item : json) : bool :=
  negb (js_type_eqb (typeof (Some item)) TObject)
  || match item with JNull => true | _ => false end
  || match item with JArray _ => true | _ => false end.

(** [!v || typeof v !== 'string']: a value that is not a string makes the
    second disjunct true whatever its truth value is, and a string is false
    exactly when it is empty. *)
Definition not_nonempty_string (v : option json) : bool :=
  match v with
  | Some (JString s) => negb (nonempty s) || negb (js_type_eqb (typeof v) TString)
  | _ => true
  end.

(** [v !== undefined && typeof v !== t] *)
Definition defined_not (t : js_type) (v : option json) : bool :=
  match v with
  | None => false
  | Some _ => negb (js_type_eqb (typeof v) t)
  end.

(** [v as string]: a cast, so the value itself.  It is applied after
    [typeof v === 'string'] held; the model gives the empty string
    elsewhere. *)
Definition as_string (v : option json) : jsstring :=
  match v with
  | Some (JString s) => s
  | _ => []
  end.

(** [typeof v === 'string' && v.trim() !== ''] *)
Definition non_blank_string (v : option json) : bool :=
  js_type_eqb (typeof v) TString && nonempty (trim (as_string v)).

Definition hasContent (item : json) : bool := non_blank_string (get item (js "content")).
Definition hasPath (item : json) : bool := non_blank_string (get item (js "path")).

(** [(v as boolean) ?? true]: [true] for [undefined] and [null], else the
    value, a boolean where the code gets here. *)
Definition or_true (v : option json) : bool :=
  match v with
  | None | Some JNull => true
  | Some (JBool b) => b
  | Some _ => true
  end.

(** [`Resource [${i}]`] and [`Resource [${i}] "${item.name}"`] *)
Definition at_index (i : nat) : jsstring :=
  js "Resource [" ++ index_text i ++ js "]".

Definition at_item (i : nat) (nm : jsstring) : jsstring :=
  at_index i ++ js " " ++ quoted nm.

Module Msg.
Definition not_json : jsstring :=
  js "Input " ++ quoted (js "resources") ++ js " is not valid JSON".
Definition not_array : jsstring :=
  js "Input " ++ quoted (js "resources") ++ js " must be a JSON array".
Definition not_object (i : nat) : jsstring :=
  at_index i ++ js ": must be a JSON object".
Definition name_required (i : nat) : jsstring :=
  at_index i ++ js ": " ++ quoted (js "name") ++ js " is required and must be a string".
Definition content_type (i : nat) (nm : jsstring) : jsstring :=
  at_item i nm ++ js ": " ++ quoted (js "content") ++ js " must be a string when provided".
Definition path_type (i : nat) (nm : jsstring) : jsstring :=
  at_item i nm ++ js ": " ++ quoted (js "path") ++ js " must be a string when provided".
Definition visible_type (i : nat) (nm : jsstring) : jsstring :=
  at_item i nm ++ js ": " ++ quoted (js "visibleToCustomers")
    ++ js " must be a boolean when provided".
Definition both (i : nat) (nm : jsstring) : jsstring :=
  at_item i nm ++ js ": specify either " ++ quoted (js "content") ++ js " or "
    ++ quoted (js "path") ++ js ", not both".
Definition neither (i : nat) (nm : jsstring) : jsstring :=
  at_item i nm ++ js ": either " ++ quoted (js "content") ++ js " or "
    ++ quoted (js "path") ++ js " is required".
Definition read_failed (i : nat) (nm path cause : jsstring) : jsstring :=
  at_item i nm ++ js ": failed to read file " ++ quoted path ++ js ": " ++ cause.
End Msg.

(** The body of the [for] loop (lines 113-160) for the item at index [i]. *)
Definition loop_body (i : nat) (item : json) : M Resource :=
  if not_plain_object item then throw (Msg.not_object i)
  else if not_nonempty_string (get item (js "name")) then throw (Msg.name_required i)
  else
    let nm := as_string (get item (js "name")) in
    if defined_not TString (get item (js "content")) then throw (Msg.content_type i nm)
    else if defined_not TString (get item (js "path")) then throw (Msg.path_type i nm)
    else if defined_not TBoolean (get item (js "visibleToCustomers")) then
      throw (Msg.visible_type i nm)
    else if hasContent item && hasPath item then throw (Msg.both i nm)
    else if negb (hasContent item) && negb (hasPath item) then throw (Msg.neither i nm)
    else
      do body <- (if hasPath item then
                    let path := as_string (get item (js "path")) in
                    do r <- readFile path;
                    match r with
                    | ReadOk text => ret text
                    | ReadErr cause => throw (Msg.read_failed i nm path cause)
                    end
                  else ret (as_string (get item (js "content"))));
      ret {| name := nm;
             content := body;
             visibleToCustomers := or_true (get item (js "visibleToCustomers")) |}.

(** [for (let i = 0; i < parsed.length; i++) { ...; resources.push(...) }],
    from index [i] on, [items] being the elements not yet visited. *)
Fixpoint loop (i : nat) (items : list json) (resources : list Resource)
    : M (list Resource) :=
  match items with
  | [] => ret resources
  | item :: rest =>
      do r <- loop_body i item;
      loop (S i) rest (resources ++ [r])
  end.

(** [undefined] is [None]. *)
Definition parseAndResolveResources (input : jsstring) : M (option (list Resource)) :=
  if negb (nonempty input) then ret None
  else
    do parsed <- JSON_parse input;
    match parsed with
    | None => throw Msg.not_json
    | Some (JArray items) =>
        do resources <- loop 0 items [];
        ret (if (0 <? length resources)%nat then Some resources else None)
    | Some _ => throw Msg.not_array
    end.

(** ** What the specification calls a valid element *)

(** The shape the specification asks of an element: an object whose [name]
    is a non-empty string, whose [content] and [path] are strings when
    present, and whose [visibleToCustomers] is a boolean when present. *)
Definition name_ok (v : option json) : bool :=
  match v with
  | Some (JString s) => nonempty s
  | _ => false
  end.

Definition string_if_present (v : option json) : bool :=
  match v with
  | None | Some (JString _) => true
  | Some _ => false
  end.

Definition boolean_if_present (v : option json) : bool :=
  match v with
  | None | Some (JBool _) => true
  | Some _ => false
  end.

Definition well_typed (item : json) : bool :=
  match item with
  | JObject o =>
      name_ok (o !! js "name")
      && string_if_present (o !! js "content")
      && string_if_present (o !! js "path")
      && boolean_if_present (o !! js "visibleToCustomers")
  | _ => false
  end.

(** The invariant of the data model: well typed, and exactly one of
    [content] and [path] is non-blank. *)
Definition valid_spec (item : json) : bool :=
  well_typed item && xorb (hasContent item) (hasPath item).

(** The file a path-backed element names can be read. *)
Definition readable (fs : jsstring -> read_result) (item : json) : bool :=
  if hasPath item then
    match fs (as_string (get item (js "path"))) with
    | ReadOk _ => true
    | ReadErr _ => false
    end
  else true.

(** A valid element whose body can be resolved in the file system [fs]. *)
Definition resolvable (fs : jsstring -> read_result) (item : json) : bool :=
  valid_spec item && readable fs item.

(** The reads a valid element causes: one for a path-backed element. *)
Definition item_reads (item : json) : list event :=
  if hasPath item then [ReadCall (as_string (get item (js "path")))] else [].

(** [r] is the output for [item]: same name, the literal body, and the
    visibility flag with its default. *)
Definition produced_from (fs : jsstring -> read_result) (item : json) (r : Resource) : Prop :=
  get item (js "name") = Some (JString (name r))
  /\ (if hasPath item
      then exists p, get item (js "path") = Some (JString p) /\ fs p = ReadOk (content r)
      else get item (js "content") = Some (JString (content r)))
  /\ match get item (js "visibleToCustomers") with
     | None => visibleToCustomers r = true
     | Some v => v = JBool (visibleToCustomers r)
     end.

(** [a] starts with [p]. *)
Definition starts_with (p a : jsstring) : Prop := exists rest, a = p ++ rest.

(** The output for a valid element, given the body resolved for it. *)
Definition resource_of (item : json) (body : jsstring) : Resource :=
  {| name := as_string (get item (js "name"));
     content := body;
     visibleToCustomers := or_true (get item (js "visibleToCustomers")) |}.

(** The body resolved for a resolvable element. *)
Definition body_of (fs : jsstring -> read_result) (item : json) : jsstring :=
  if hasPath item then
    match fs (as_string (get item (js "path"))) with
    | ReadOk text => text
    | ReadErr _ => []
    end
  else as_string (get item (js "content")).

Definition output_of (fs : jsstring -> read_result) (item : json) : Resource :=
  resource_of item (body_of fs item).

(** The keys the function reads. *)
Definition recognized : list jsstring :=
  [js "name"; js "content"; js "path"; js "visibleToCustomers"].

(** Two elements that differ only in unrecognized keys: two objects with the
    same value, or the same absence, at every recognized key; anything else
    must be the same value. *)
Definition same_recognized (a b : json) : Prop :=
  match a, b with
  | JObject oa, JObject ob => forall k, k ∈ recognized -> oa !! k = ob !! k
  | _, _ => a = b
  end.

(** ** Calls are only ever appended

    A computation is framed when it leaves the files alone, its outcome does
    not depend on the calls already recorded, and it only appends to them. *)

Definition fresh (fs : jsstring -> read_result) : World := mkWorld fs [].

Definition framed {A} (m : M A) : Prop :=
  forall fs cs,
    m (mkWorld fs cs)
    = (fst (m (fresh fs)), mkWorld fs (cs ++ calls (snd (m (fresh fs))))).

(** ** The action around the resolver: [requiredInput] and [run]

    [run] (src/main.ts, lines 19-93) reads the inputs of the step, calls the
    resolver, creates a version through the backend client and, when asked,
    rolls it out.  The inputs, the client and its answers belong to the
    environment; the effects of [run] besides file reads are recorded as
    actions, oldest first. *)

(** What a rejected promise or a [throw] carries: an [Error] with its
    message, or a value that is not an [Error]. *)
Inductive thrown : Type :=
  | ErrorObject (message : jsstring)
  | OtherValue.

Inductive result (A : Type) : Type :=
  | Done (a : A)
  | Raised (e : thrown).
Arguments Done {A} a.
Arguments Raised {A} e.

(** The version the backend answers with; its [id] may be missing. *)
Record Version : Type := mkVersion {
  version_id : option jsstring
}.

Module Docker.
Record Params : Type := mkParams {
  composeFile : jsstring;
  templateFile : option jsstring;
  linkTemplate : option jsstring;
  resources : option (list Resource)
}.
End Docker.

Module Kubernetes.
Record Params : Type := mkParams {
  chartName : option jsstring;
  chartVersion : jsstring;
  chartType : jsstring;
  chartUrl : jsstring;
  baseValuesFile : option jsstring;
  templateFile : option jsstring;
  linkTemplate : option jsstring;
  resources : option (list Resource)
}.
End Kubernetes.

Record SkippedTarget : Type := mkSkipped {
  deploymentTargetName : jsstring;
  reason : jsstring
}.

(** The answer of [updateAllDeployments]; of the updated targets only the
    number is used. *)
Record UpdateResult : Type := mkUpdateResult {
  updatedTargets : list jsstring;
  skippedTargets : list SkippedTarget
}.

(** The client [new DistrService(...)] gives: the three methods [run]
    calls, each with the answer of the backend. *)
Record Service : Type := mkService {
  createDockerApplicationVersion :
    jsstring -> jsstring -> Docker.Params -> result Version;
  createKubernetesApplicationVersion :
    jsstring -> jsstring -> Kubernetes.Params -> result Version;
  updateAllDeployments : jsstring -> jsstring -> result UpdateResult
}.

(** The environment of the step: [core.getInput], [core.getBooleanInput] and
    the constructor of the client, given [apiBase] and [apiKey]. *)
Record Env : Type := mkEnv {
  getInput : jsstring -> jsstring;
  getBooleanInput : jsstring -> result bool;
  DistrService : option jsstring -> jsstring -> result Service
}.

Inductive action : Type :=
  | NewService (apiBase : option jsstring) (apiKey : jsstring)
  | CreateDocker (appId versionName : jsstring) (params : Docker.Params)
  | CreateKubernetes (appId versionName : jsstring) (params : Kubernetes.Params)
  | UpdateAll (appId versionId : jsstring)
  | SetOutput (key value : jsstring)
  | Info (message : jsstring)
  | SetFailed (message : jsstring).

Record Run : Type := mkRun {
  world : World;
  actions : list action
}.

Definition R (A : Type) : Type := Run -> result A * Run.

Definition rret {A} (a : A) : R A := fun st => (Done a, st).

Definition raise {A} (e : thrown) : R A := fun st => (Raised e, st).

Definition rbind {A B} (m : R A) (k : A -> R B) : R B :=
  fun st =>
    match m st with
    | (Done a, st') => k a st'
    | (Raised e, st') => (Raised e, st')
    end.

Notation "'await' x <- m ; k" := (rbind m (fun x => k))
  (at level 10, x name, m at level 100, k at level 200).

(** [try { body } catch (error) { handler }] *)
Definition try_catch {A} (body : R A) (handler : thrown -> R A) : R A :=
  fun st =>
    match body st with
    | (Done a, st') => (Done a, st')
    | (Raised e, st') => handler e st'
    end.

Definition emit (a : action) : R unit :=
  fun st => (Done tt, {| world := world st; actions := actions st ++ [a] |}).

(** An answer of the environment, with the call recorded. *)
Definition answer {A} (a : action) (r : result A) : R A :=
  fun st => (r, {| world := world st; actions := actions st ++ [a] |}).

(** A computation of the resolver's monad run inside [run]: what it throws
    is an [Error]. *)
Definition lift {A} (m : M A) : R A :=
  fun st =>
    match m (world st) with
    | (Returned a, w') => (Done a, {| world := w'; actions := actions st |})
    | (Thrown message, w') =>
        (Raised (ErrorObject message), {| world := w'; actions := actions st |})
    end.

(** [await fs.readFile(path, 'utf8')] outside any [try]: a failed read
    rejects with the [Error] of the file system, whose message is the
    cause. *)
Definition read_text (path : jsstring) : R jsstring :=
  lift (do r <- readFile path;
        match r with
        | ReadOk text => ret text
        | ReadErr cause => throw cause
        end).

(** [s || undefined] *)
Definition or_undefined (s : jsstring) : option jsstring :=
  if nonempty s then Some s else None.

(** [path ? await fs.readFile(path, 'utf8') : undefined] *)
Definition read_if_given (path : jsstring) : R (option jsstring) :=
  if nonempty path then await text <- read_text path; rret (Some text)
  else rret None.

Module RunMsg.
Definition required (id : jsstring) : jsstring :=
  js "Input " ++ id ++ js " is required".
Definition no_id : jsstring := js "Created version does not have an ID".
Definition updating : jsstring := js "Updating all deployments to the new version...".
Definition updated (n : nat) : jsstring :=
  js "Updated " ++ index_text n ++ js " deployment target(s)".
Definition skipped (n : nat) : jsstring :=
  js "Skipped " ++ index_text n ++ js " deployment target(s):".
Definition skipped_line (target : SkippedTarget) : jsstring :=
  js "  - " ++ deploymentTargetName target ++ js ": " ++ reason target.
End RunMsg.

(** [requiredInput] (lines 166-172) *)
Definition requiredInput (env : Env) (id : jsstring) : R jsstring :=
  let val := getInput env id in
  if negb (nonempty val) then raise (ErrorObject (RunMsg.required id))
  else rret val.

(** [if (!version.id) throw ...; versionId = version.id;
    core.setOutput('created-version-id', version.id)] *)
Definition publish_id (version : Version) : R jsstring :=
  match version_id version with
  | Some vid =>
      if negb (nonempty vid) then raise (ErrorObject RunMsg.no_id)
      else await _ <- emit (SetOutput (js "created-version-id") vid); rret vid
  | None => raise (ErrorObject RunMsg.no_id)
  end.

(** [result.skippedTargets.forEach((target) => core.info(...))] *)
Fixpoint info_each (targets : list SkippedTarget) : R unit :=
  match targets with
  | [] => rret tt
  | target :: rest =>
      await _ <- emit (Info (RunMsg.skipped_line target));
      info_each rest
  end.

(** Lines 38-76: the version is created from the compose file when one is
    given, and from the chart inputs otherwise; the result is the id of the
    version. *)
Definition create_version (env : Env) (distr : Service) (appId versionName : jsstring)
    (templateFile linkTemplate : option jsstring)
    (resources : option (list Resource)) : R jsstring :=
  let composePath := getInput env (js "compose-file") in
  if nonempty composePath then
    await composeFile <- read_text composePath;
    let dockerParams :=
      Docker.mkParams composeFile templateFile linkTemplate resources in
    await version <-
      answer (CreateDocker appId versionName dockerParams)
        (createDockerApplicationVersion distr appId versionName dockerParams);
    publish_id version
  else
    await chartVersion <- requiredInput env (js "chart-version");
    await chartType <- requiredInput env (js "chart-type");
    await chartName <-
      (if same_text chartType (js "repository")
       then await n <- requiredInput env (js "chart-name"); rret (Some n)
       else rret None);
    await chartUrl <- requiredInput env (js "chart-url");
    let baseValuesPath := getInput env (js "base-values-file") in
    await baseValuesFile <- read_if_given baseValuesPath;
    let k8sParams :=
      Kubernetes.mkParams chartName chartVersion chartType chartUrl
        baseValuesFile templateFile linkTemplate resources in
    await version <-
      answer (CreateKubernetes appId versionName k8sParams)
        (createKubernetesApplicationVersion distr appId versionName k8sParams);
    publish_id version.

(** Lines 79-87: the roll-out and its report. *)
Definition update_deployments (distr : Service) (appId versionId : jsstring) : R unit :=
  await _ <- emit (Info RunMsg.updating);
  await result <-
    answer (UpdateAll appId versionId) (updateAllDeployments distr appId versionId);
  await _ <- emit (Info (RunMsg.updated (length (updatedTargets result))));
  if (0 <? length (skippedTargets result))%nat then
    await _ <- emit (Info (RunMsg.skipped (length (skippedTargets result))));
    info_each (skippedTargets result)
  else rret tt.

(** The body of the [try] (lines 21-88). *)
Definition run_body (env : Env) : R unit :=
  await token <- requiredInput env (js "api-token");
  let apiBase := or_undefined (getInput env (js "api-base")) in
  await appId <- requiredInput env (js "application-id");
  await versionName <- requiredInput env (js "version-name");
  await updateDeployments <-
    (fun st => (getBooleanInput env (js "update-deployments"), st));
  await distr <- answer (NewService apiBase token) (DistrService env apiBase token);
  let templatePath := getInput env (js "template-file") in
  await templateFile <- read_if_given templatePath;
  let linkTemplate := or_undefined (getInput env (js "link-template")) in
  await resources <- lift (parseAndResolveResources (getInput env (js "resources")));
  await versionId <-
    create_version env distr appId versionName templateFile linkTemplate resources;
  if updateDeployments then update_deployments distr appId versionId
  else rret tt.

(** [run]: the body, with [catch (error) { if (error instanceof Error)
    core.setFailed(error.message) }]. *)
Definition run (env : Env) : R unit :=
  try_catch (run_body env)
    (fun error =>
       match error with
       | ErrorObject message => emit (SetFailed message)
       | OtherValue => rret tt
       end).

(** ** Worlds and inputs for the examples *)

Module Examples.

(** A literal with ['] standing for the double quote. *)
Definition q (s : string) : jsstring :=
  map (fun c => if c =? 39 then 34 else c) (js s).

(** A file system with one readable file and nothing else. *)
Definition disk (path : jsstring) : read_result :=
  if same_text path (js "f.txt") then ReadOk (js "from file")
  else ReadErr (js "ENOENT: no such file or directory").

Definition w0 : World := {| files := disk; calls := [] |}.

Definition parsed_items (input : jsstring) : list json :=
  match Json.parse input with
  | Some (JArray items) => items
  | _ => []
  end.

Definition item_at (k : nat) (input : jsstring) : json :=
  nth k (parsed_items input) JNull.

Definition before (k : nat) (input : jsstring) : list json :=
  take k (parsed_items input).

Definition after (k : nat) (input : jsstring) : list json :=
  drop (S k) (parsed_items input).

Definition one_inline : jsstring := q "[{'name':'a','content':'hello'}]".
Definition both_given : jsstring := q "[{'name':'a','content':'x','path':'f.txt'}]".
Definition none_given : jsstring := q "[{'name':'a','content':'  '}]".
Definition missing_file : jsstring := q "[{'name':'a','path':'missing.txt'}]".
Definition hidden : jsstring :=
  q "[{'name':'a','content':'x','visibleToCustomers':false}]".
Definition file_then_inline : jsstring :=
  q "[{'name':'a','path':'f.txt'}, {'name':'b','content':' x ','visibleToCustomers':false}]".
Definition bad_in_the_middle : jsstring :=
  q "[{'name':'a','content':'x'},{'name':''},{'name':'c','path':'f.txt'}]".
Definition unreadable_then_unnamed : jsstring :=
  q "[{'name':'a','path':'missing.txt'},{'name':''}]".
Definition unreadable_second : jsstring :=
  q "[{'name':'a','path':'f.txt'},{'name':'b','path':'missing.txt'},{'name':'c','path':'f.txt'}]".
Definition padded_content : jsstring := q "[{'name':'a','content':'  hi  '}]".
Definition blank_name : jsstring := q "[{'name':' ','content':'x'}]".
Definition number_content : jsstring := q "[{'name':'a','content':5}]".
Definition plain : jsstring := q "[{'name':'a','content':'x'}]".
Definition with_extra : jsstring :=
  q "[{'extra':[1,{'path':'p'}],'name':'a','content':'x','labels':null}]".

End Examples.
Import Examples.

(** What [run] sees of a file and of the resolver, given the files. *)
Definition to_result {A} (o : outcome A) : result A :=
  match o with
  | Returned a => Done a
  | Thrown message => Raised (ErrorObject message)
  end.

Definition file_text (fs : jsstring -> read_result) (path : jsstring) : result jsstring :=
  match fs path with
  | ReadOk text => Done text
  | ReadErr cause => Raised (ErrorObject cause)
  end.

Definition optional_text (fs : jsstring -> read_result) (path : jsstring)
    : result (option jsstring) :=
  if nonempty path then
    match fs path with
    | ReadOk text => Done (Some text)
    | ReadErr cause => Raised (ErrorObject cause)
    end
  else Done None.

(** The order in which [run] acts, as an automaton over its actions: the
    client, one version, its id as output, then the roll-out and its
    report; a failure ends everything. *)
Inductive stage : Type :=
  | AtStart
  | WithClient
  | Created (appId : jsstring)
  | Published (appId versionId : jsstring)
  | Announced (appId versionId : jsstring)
  | RolledOut
  | Reported
  | HasFailed.

Definition next_stage (s : stage) (a : action) : option stage :=
  match s, a with
  | AtStart, NewService _ _ => Some WithClient
  | WithClient, CreateDocker appId _ _ => Some (Created appId)
  | WithClient, CreateKubernetes appId _ _ => Some (Created appId)
  | Created appId, SetOutput key value =>
      if same_text key (js "created-version-id") && nonempty value
      then Some (Published appId value) else None
  | Published appId versionId, Info _ => Some (Announced appId versionId)
  | Announced appId versionId, UpdateAll appId' versionId' =>
      if same_text appId appId' && same_text versionId versionId'
      then Some RolledOut else None
  | RolledOut, Info _ => Some Reported
  | Reported, Info _ => Some Reported
  | (AtStart | WithClient | Created _ | RolledOut), SetFailed _ => Some HasFailed
  | _, _ => None
  end.

Fixpoint follow (s : stage) (new : list action) : option stage :=
  match new with
  | [] => Some s
  | a :: rest =>
      match next_stage s a with
      | Some s' => follow s' rest
      | None => None
      end
  end.

(** Where [run] may stop: anywhere but between the announcement of the
    roll-out and the call that starts it. *)
Definition may_end (s : stage) : bool :=
  match s with
  | Announced _ _ => false
  | _ => true
  end.

(** Where the body of [run] may throw. *)
Definition may_throw (s : stage) : bool :=
  match s with
  | AtStart | WithClient | Created _ | RolledOut => true
  | _ => false
  end.

Definition follows_protocol (new : list action) : bool :=
  match follow AtStart new with
  | Some s => may_end s
  | None => false
  end.

(** Counting the actions of one kind. *)
Definition is_create (a : action) : bool :=
  match a with
  | CreateDocker _ _ _ | CreateKubernetes _ _ _ => true
  | _ => false
  end.

Definition is_output (a : action) : bool :=
  match a with SetOutput _ _ => true | _ => false end.

Definition is_update (a : action) : bool :=
  match a with UpdateAll _ _ => true | _ => false end.

Definition is_failed (a : action) : bool :=
  match a with SetFailed _ => true | _ => false end.

Fixpoint count_if (p : action -> bool) (l : list action) : nat :=
  match l with
  | [] => 0%nat
  | a :: rest => ((if p a then 1 else 0) + count_if p rest)%nat
  end.

(** What a stage still allows. *)
Definition creates_left (s : stage) : nat :=
  match s with AtStart | WithClient => 1%nat | _ => 0%nat end.

Definition outputs_due (s : stage) : nat :=
  match s with Created _ => 1%nat | _ => 0%nat end.

Definition updates_due (s : stage) : nat :=
  match s with Published _ _ | Announced _ _ => 1%nat | _ => 0%nat end.

Definition failures_left (s : stage) : nat :=
  match s with HasFailed => 0%nat | _ => 1%nat end.

(** The chart inputs [run] asks for are all given: [chart-version],
    [chart-type], [chart-name] when the type is [repository], and
    [chart-url]. *)
Definition chart_inputs_given (env : Env) : bool :=
  nonempty (getInput env (js "chart-version"))
  && nonempty (getInput env (js "chart-type"))
  && (if same_text (getInput env (js "chart-type")) (js "repository")
      then nonempty (getInput env (js "chart-name")) else true)
  && nonempty (getInput env (js "chart-url")).

(** The parameters of lines 60-69, from the chart inputs. *)
Definition chart_params (env : Env) (baseValuesFile templateFile linkTemplate : option jsstring)
    (resources : option (list Resource)) : Kubernetes.Params :=
  Kubernetes.mkParams
    (if same_text (getInput env (js "chart-type")) (js "repository")
     then Some (getInput env (js "chart-name")) else None)
    (getInput env (js "chart-version"))
    (getInput env (js "chart-type"))
    (getInput env (js "chart-url"))
    baseValuesFile templateFile linkTemplate resources.

(** Environments for the examples of [run]. *)

Module RunExamples.

(** The inputs of a step, as a table; a missing input reads as empty. *)
Fixpoint input_of (table : list (jsstring * jsstring)) (id : jsstring) : jsstring :=
  match table with
  | [] => []
  | (k, v) :: rest => if same_text id k then v else input_of rest id
  end.

Definition rollout : UpdateResult :=
  {| updatedTargets := [js "t1"; js "t2"];
     skippedTargets := [mkSkipped (js "t3") (js "locked")] |}.

(** A backend that accepts everything. *)
Definition backend : Service :=
  {| createDockerApplicationVersion := fun _ _ _ => Done (mkVersion (Some (js "v-docker")));
     createKubernetesApplicationVersion := fun _ _ _ => Done (mkVersion (Some (js "v-chart")));
     updateAllDeployments := fun _ _ => Done rollout |}.

(** A backend whose versions have no id, and one whose roll-out fails. *)
Definition backend_no_id : Service :=
  {| createDockerApplicationVersion := fun _ _ _ => Done (mkVersion None);
     createKubernetesApplicationVersion := fun _ _ _ => Done (mkVersion (Some []));
     updateAllDeployments := fun _ _ => Done rollout |}.

Definition backend_no_rollout : Service :=
  {| createDockerApplicationVersion := fun _ _ _ => Done (mkVersion (Some (js "v-docker")));
     createKubernetesApplicationVersion := fun _ _ _ => Done (mkVersion (Some (js "v-chart")));
     updateAllDeployments := fun _ _ => Raised (ErrorObject (js "503")) |}.

Definition backend_odd : Service :=
  {| createDockerApplicationVersion := fun _ _ _ => Raised OtherValue;
     createKubernetesApplicationVersion := fun _ _ _ => Raised OtherValue;
     updateAllDeployments := fun _ _ => Raised OtherValue |}.

Definition env_of (table : list (jsstring * jsstring)) (update : result bool)
    (svc : Service) : Env :=
  {| getInput := input_of table;
     getBooleanInput := fun _ => update;
     DistrService := fun _ _ => Done svc |}.

Definition base_inputs : list (jsstring * jsstring) :=
  [(js "api-token", js "tok"); (js "application-id", js "app");
   (js "version-name", js "1.0")].

Definition docker_inputs : list (jsstring * jsstring) :=
  base_inputs ++ [(js "compose-file", js "f.txt"); (js "resources", one_inline)].

Definition chart_inputs : list (jsstring * jsstring) :=
  base_inputs ++ [(js "chart-version", js "2.1"); (js "chart-type", js "oci");
                  (js "chart-name", js "ignored"); (js "chart-url", js "oci://r/c")].

Definition start : Run := {| world := w0; actions := [] |}.

Definition bad_resources_inputs : list (jsstring * jsstring) :=
  base_inputs ++ [(js "compose-file", js "f.txt"); (js "resources", both_given)].

Definition missing_template_inputs : list (jsstring * jsstring) :=
  docker_inputs ++ [(js "template-file", js "tpl.txt")].

Definition missing_compose_inputs : list (jsstring * jsstring) :=
  base_inputs ++ [(js "compose-file", js "compose.yaml"); (js "resources", one_inline)].

Definition repository_inputs : list (jsstring * jsstring) :=
  base_inputs ++ [(js "chart-version", js "2.1"); (js "chart-type", js "repository");
                  (js "chart-url", js "https://charts")].

Definition null_element : jsstring := q "[{'name':'a','content':'x'},null]".
Definition no_name : jsstring :=
  q "[{'content':'x','path':'f.txt','visibleToCustomers':'yes'}]".
Definition null_content : jsstring := q "[{'name':'a','content':null,'path':'f.txt'}]".
Definition blank_path : jsstring := q "[{'name':'a','content':'x','path':'  '}]".
Definition padded_path : jsstring := q "[{'name':'a','content':'','path':' f.txt '}]".
Definition an_object : jsstring := q "{'name':'a'}".
Definition trailing_comma : jsstring := q "[{'name':'a',}]".

End RunExamples.
Import RunExamples.

#[global] Opaque js trim index_text.


(** ** Framing: the outcome does not depend on the recorded calls *)

Section Framing.

Lemma framed_ret {A} (a : A) : framed (ret a).
Proof. intros fs cs. unfold ret, fresh. simpl. by rewrite app_nil_r. Qed.

Lemma framed_throw {A} (msg : jsstring) : framed (@throw A msg).
Proof. intros fs cs. unfold throw, fresh. simpl. by rewrite app_nil_r. Qed.

Lemma framed_bind {A B} (m : M A) (k : A -> M B) :
  framed m -> (forall a, framed (k a)) -> framed (bind m k).
Proof.
  intros Hm Hk fs cs. unfold bind.
  rewrite (Hm fs cs). unfold fresh in *.
  destruct (m (mkWorld fs [])) as [[a|msg] [fs1 cs1]] eqn:E; simpl; [|done].
  pose proof (Hm fs []) as H0. rewrite E in H0. simpl in H0.
  assert (fs1 = fs) as -> by congruence.
  rewrite (Hk a fs (cs ++ cs1)), (Hk a fs cs1). simpl.
  by rewrite app_assoc.
Qed.

Lemma framed_readFile (path : jsstring) : framed (readFile path).
Proof. intros fs cs. reflexivity. Qed.

Lemma framed_JSON_parse (text : jsstring) : framed (JSON_parse text).
Proof. intros fs cs. reflexivity. Qed.

Lemma framed_loop_body (i : nat) (item : json) : framed (loop_body i item).
Proof.
  unfold loop_body.
  repeat (case_match; try apply framed_throw).
  - apply framed_bind.
    + apply framed_bind; [apply framed_readFile|].
      intros []; [apply framed_ret | apply framed_throw].
    + intros a. apply framed_ret.
  - apply framed_bind; [apply framed_ret|]. intros a. apply framed_ret.
Qed.

Lemma framed_loop (items : list json) :
  forall i resources, framed (loop i items resources).
Proof.
  induction items as [|item rest IH]; intros i resources; simpl.
  - apply framed_ret.
  - apply framed_bind; [apply framed_loop_body|]. intros r. apply IH.
Qed.

Lemma framed_parseAndResolveResources (input : jsstring) :
  framed (parseAndResolveResources input).
Proof.
  unfold parseAndResolveResources.
  case_match; [apply framed_ret|].
  apply framed_bind; [apply framed_JSON_parse|].
  intros [v|]; [|apply framed_throw].
  destruct v; try apply framed_throw.
  apply framed_bind; [apply framed_loop|]. intros rs. apply framed_ret.
Qed.

End Framing.

(** ** One pass through the loop body *)

Section LoopBody.

Variable fs : jsstring -> read_result.

Lemma name_ok_check (v : option json) :
  name_ok v = negb (not_nonempty_string v).
Proof. destruct v as [[| | |s| |]|]; try reflexivity. simpl. by destruct s. Qed.

Lemma string_if_present_check (v : option json) :
  string_if_present v = negb (defined_not TString v).
Proof. by destruct v as [[]|]. Qed.

Lemma boolean_if_present_check (v : option json) :
  boolean_if_present v = negb (defined_not TBoolean v).
Proof. by destruct v as [[]|]. Qed.

(** The shape of the specification is what the first five checks of the
    loop body test. *)
Lemma well_typed_checks (item : json) :
  well_typed item
  = negb (not_plain_object item)
    && negb (not_nonempty_string (get item (js "name")))
    && negb (defined_not TString (get item (js "content")))
    && negb (defined_not TString (get item (js "path")))
    && negb (defined_not TBoolean (get item (js "visibleToCustomers"))).
Proof.
  destruct item as [| | | | |o]; try reflexivity.
  unfold well_typed, get.
  by rewrite name_ok_check, !string_if_present_check, boolean_if_present_check.
Qed.

Lemma well_typed_passes (item : json) :
  well_typed item = true ->
  not_plain_object item = false
  /\ not_nonempty_string (get item (js "name")) = false
  /\ defined_not TString (get item (js "content")) = false
  /\ defined_not TString (get item (js "path")) = false
  /\ defined_not TBoolean (get item (js "visibleToCustomers")) = false.
Proof.
  rewrite well_typed_checks. intros H.
  repeat (apply andb_prop in H as [H ?]).
  repeat split; by apply negb_true_iff.
Qed.

Lemma at_item_starts (i : nat) (nm rest : jsstring) :
  starts_with (at_index i) (at_item i nm ++ rest).
Proof. unfold at_item. rewrite <- !app_assoc. by eexists. Qed.

Lemma at_index_starts (i : nat) (rest : jsstring) :
  starts_with (at_index i) (at_index i ++ rest).
Proof. by eexists. Qed.

(** An element of the wrong shape is refused without any read. *)
Lemma loop_body_ill_typed (w : World) (i : nat) (item : json) :
  well_typed item = false ->
  exists msg,
    loop_body i item w = (Thrown msg, w) /\ starts_with (at_index i) msg.
Proof.
  rewrite well_typed_checks. intros H. unfold loop_body.
  destruct (not_plain_object item);
    [eexists; split; [reflexivity|apply at_index_starts]|].
  destruct (not_nonempty_string _);
    [eexists; split; [reflexivity|apply at_index_starts]|].
  destruct (defined_not TString (get item (js "content")));
    [eexists; split; [reflexivity|apply at_item_starts]|].
  destruct (defined_not TString (get item (js "path")));
    [eexists; split; [reflexivity|apply at_item_starts]|].
  destruct (defined_not TBoolean _);
    [eexists; split; [reflexivity|apply at_item_starts]|].
  discriminate.
Qed.

(** Both bodies given: refused, whatever the files hold. *)
Lemma loop_body_both (w : World) (i : nat) (item : json) :
  well_typed item = true ->
  hasContent item = true -> hasPath item = true ->
  loop_body i item w
  = (Thrown (Msg.both i (as_string (get item (js "name")))), w).
Proof.
  intros (H1 & H2 & H3 & H4 & H5)%well_typed_passes Hc Hp.
  unfold loop_body. by rewrite H1, H2, H3, H4, H5, Hc, Hp.
Qed.

(** No body given: refused. *)
Lemma loop_body_neither (w : World) (i : nat) (item : json) :
  well_typed item = true ->
  hasContent item = false -> hasPath item = false ->
  loop_body i item w
  = (Thrown (Msg.neither i (as_string (get item (js "name")))), w).
Proof.
  intros (H1 & H2 & H3 & H4 & H5)%well_typed_passes Hc Hp.
  unfold loop_body. by rewrite H1, H2, H3, H4, H5, Hc, Hp.
Qed.

Lemma loop_body_inline (w : World) (i : nat) (item : json) :
  valid_spec item = true -> hasPath item = false ->
  loop_body i item w
  = (Returned (resource_of item (as_string (get item (js "content")))), w).
Proof.
  intros [Ht Hx]%andb_prop Hp.
  apply well_typed_passes in Ht as (H1 & H2 & H3 & H4 & H5).
  rewrite Hp in Hx. destruct (hasContent item) eqn:Hc; [|discriminate].
  unfold loop_body. by rewrite H1, H2, H3, H4, H5, Hc, Hp.
Qed.

Lemma loop_body_path (cs : list event) (i : nat) (item : json) :
  valid_spec item = true -> hasPath item = true ->
  loop_body i item (mkWorld fs cs)
  = (match fs (as_string (get item (js "path"))) with
     | ReadOk text => Returned (resource_of item text)
     | ReadErr cause =>
         Thrown (Msg.read_failed i (as_string (get item (js "name")))
                   (as_string (get item (js "path"))) cause)
     end,
     mkWorld fs (cs ++ [ReadCall (as_string (get item (js "path")))])).
Proof.
  intros [Ht Hx]%andb_prop Hp.
  apply well_typed_passes in Ht as (H1 & H2 & H3 & H4 & H5).
  rewrite Hp in Hx. destruct (hasContent item) eqn:Hc; [discriminate|].
  unfold loop_body. rewrite H1, H2, H3, H4, H5, Hc, Hp. simpl.
  unfold bind, readFile, record_call. simpl.
  by destruct (fs _).
Qed.

Lemma resource_of_produced (item : json) (body : jsstring) :
  valid_spec item = true ->
  (if hasPath item
   then fs (as_string (get item (js "path"))) = ReadOk body
   else body = as_string (get item (js "content"))) ->
  produced_from fs item (resource_of item body).
Proof.
  unfold valid_spec, well_typed, produced_from, resource_of, hasContent, hasPath,
    non_blank_string, get.
  intros [H Hx]%andb_prop.
  destruct item as [| | | | |o]; try discriminate.
  repeat (apply andb_prop in H as [H ?]).
  destruct (o !! js "name") as [[| | |nm| |]|]; try discriminate.
  destruct (o !! js "content") as [[| | |c| |]|]; try discriminate;
    destruct (o !! js "path") as [[| | |p| |]|]; try discriminate;
    destruct (o !! js "visibleToCustomers") as [[|b| | | |]|]; try discriminate;
    simpl in *.
  all: repeat match goal with
       | |- context [nonempty ?t] => destruct (nonempty t); simpl in *
       end; try discriminate.
  all: intros Hb; subst; eauto.
Qed.

Lemma loop_body_resolvable (cs : list event) (i : nat) (item : json) :
  resolvable fs item = true ->
  exists r,
    loop_body i item (mkWorld fs cs) = (Returned r, mkWorld fs (cs ++ item_reads item))
    /\ produced_from fs item r.
Proof.
  unfold resolvable, readable, item_reads. intros [Hv Hr]%andb_prop.
  destruct (hasPath item) eqn:Hp.
  - rewrite (loop_body_path cs i item Hv Hp).
    destruct (fs _) as [text|] eqn:Ef; [|discriminate].
    eexists; split; [reflexivity|].
    apply resource_of_produced; [done|]. by rewrite Hp.
  - rewrite (loop_body_inline _ i item Hv Hp), app_nil_r.
    eexists; split; [reflexivity|].
    apply resource_of_produced; [done|]. by rewrite Hp.
Qed.

(** An element that cannot be resolved stops the loop with an error that
    starts with its index. *)
Lemma loop_body_unresolvable (cs : list event) (i : nat) (item : json) :
  resolvable fs item = false ->
  exists msg evs,
    loop_body i item (mkWorld fs cs) = (Thrown msg, mkWorld fs (cs ++ evs))
    /\ starts_with (at_index i) msg.
Proof.
  unfold resolvable, valid_spec, readable. intros H.
  destruct (well_typed item) eqn:Ht.
  - destruct (hasContent item) eqn:Hc, (hasPath item) eqn:Hp; simpl in H.
    + rewrite (loop_body_both _ i item Ht Hc Hp).
      exists (Msg.both i (as_string (get item (js "name")))), [].
      rewrite app_nil_r. split; [done|apply at_item_starts].
    + discriminate.
    + rewrite (loop_body_path cs i item); [|unfold valid_spec; by rewrite Ht, Hc, Hp|done].
      destruct (fs _) as [|cause]; [discriminate|].
      eexists _, _. split; [reflexivity|apply at_item_starts].
    + rewrite (loop_body_neither _ i item Ht Hc Hp).
      exists (Msg.neither i (as_string (get item (js "name")))), [].
      rewrite app_nil_r. split; [done|apply at_item_starts].
  - destruct (loop_body_ill_typed (mkWorld fs cs) i item Ht) as (msg & -> & Hs).
    exists msg, []. by rewrite app_nil_r.
Qed.

(** The body reads a file exactly for a valid element that names a path,
    and then reads that path once. *)
Lemma loop_body_reads (cs : list event) (i : nat) (item : json) :
  calls (snd (loop_body i item (mkWorld fs cs)))
  = cs ++ (if valid_spec item && hasPath item
           then [ReadCall (as_string (get item (js "path")))]
           else []).
Proof.
  unfold valid_spec. destruct (well_typed item) eqn:Ht.
  - destruct (hasContent item) eqn:Hc, (hasPath item) eqn:Hp; simpl.
    + by rewrite (loop_body_both _ i item Ht Hc Hp), app_nil_r.
    + rewrite (loop_body_inline _ i item); [by rewrite app_nil_r| |done].
      unfold valid_spec. by rewrite Ht, Hc, Hp.
    + rewrite (loop_body_path cs i item); [done| |done].
      unfold valid_spec. by rewrite Ht, Hc, Hp.
    + by rewrite (loop_body_neither _ i item Ht Hc Hp), app_nil_r.
  - destruct (loop_body_ill_typed (mkWorld fs cs) i item Ht) as (msg & -> & _).
    by rewrite app_nil_r.
Qed.

End LoopBody.

(** ** The loop over the parsed array *)

Section Loop.

Variable fs : jsstring -> read_result.

Lemma loop_body_output (cs : list event) (i : nat) (item : json) :
  resolvable fs item = true ->
  loop_body i item (mkWorld fs cs)
  = (Returned (output_of fs item), mkWorld fs (cs ++ item_reads item)).
Proof.
  unfold resolvable, readable, item_reads, output_of, body_of.
  intros [Hv Hr]%andb_prop.
  destruct (hasPath item) eqn:Hp.
  - rewrite (loop_body_path fs cs i item Hv Hp).
    by destruct (fs _).
  - by rewrite (loop_body_inline _ i item Hv Hp), app_nil_r.
Qed.

Lemma output_of_produced (item : json) :
  resolvable fs item = true -> produced_from fs item (output_of fs item).
Proof.
  unfold resolvable, readable, output_of, body_of. intros [Hv Hr]%andb_prop.
  apply resource_of_produced; [done|].
  destruct (hasPath item); [|done]. by destruct (fs _).
Qed.

(** Resolvable elements are consumed in order: each appends its output and
    its read, and the loop goes on with the next index. *)
Lemma loop_resolvable (pre : list json) :
  forall i resources cs rest,
    forallb (resolvable fs) pre = true ->
    loop i (pre ++ rest) resources (mkWorld fs cs)
    = loop (i + length pre) rest (resources ++ map (output_of fs) pre)
        (mkWorld fs (cs ++ flat_map item_reads pre)).
Proof.
  induction pre as [|item pre IH]; intros i resources cs rest H; simpl.
  - by rewrite Nat.add_0_r, !app_nil_r.
  - apply andb_prop in H as [Hi Hpre].
    unfold bind at 1. rewrite (loop_body_output cs i item Hi).
    rewrite (IH (S i) _ _ rest Hpre).
    by rewrite Nat.add_succ_r, <- !app_assoc.
Qed.

Lemma loop_all_resolvable (items : list json) (cs : list event) :
  forallb (resolvable fs) items = true ->
  loop 0 items [] (mkWorld fs cs)
  = (Returned (map (output_of fs) items), mkWorld fs (cs ++ flat_map item_reads items)).
Proof.
  intros H. pose proof (loop_resolvable items 0 [] cs [] H) as E.
  by rewrite app_nil_r in E.
Qed.

(** The first element that cannot be resolved ends the loop: what follows
    it is never looked at. *)
Lemma loop_first_failure (pre : list json) (bad : json) (cs : list event) :
  forallb (resolvable fs) pre = true ->
  resolvable fs bad = false ->
  exists msg evs,
    starts_with (at_index (length pre)) msg
    /\ forall post,
         loop 0 (pre ++ bad :: post) [] (mkWorld fs cs)
         = (Thrown msg, mkWorld fs (cs ++ flat_map item_reads pre ++ evs)).
Proof.
  intros Hpre Hbad.
  destruct (loop_body_unresolvable fs (cs ++ flat_map item_reads pre)
              (length pre) bad Hbad) as (msg & evs & E & Hs).
  exists msg, evs. split; [done|]. intros post.
  rewrite (loop_resolvable pre 0 [] cs _ Hpre). simpl.
  unfold bind. rewrite E. by rewrite <- app_assoc.
Qed.

End Loop.

(** ** The whole function *)

Lemma parse_empty : Json.parse [] = None.
Proof. reflexivity. Qed.

Lemma parsed_nonempty (input : jsstring) (v : json) :
  Json.parse input = Some v -> nonempty input = true.
Proof. destruct input; [discriminate|done]. Qed.

(** Once the input has parsed to an array, the function is the loop run
    after the recorded parse call, with the empty output turned into
    [undefined]. *)
Lemma resolve_array (input : jsstring) (items : list json) (w : World) :
  Json.parse input = Some (JArray items) ->
  parseAndResolveResources input w
  = match loop 0 items [] (record_call (ParseCall input) w) with
    | (Returned resources, w') =>
        (Returned (if (0 <? length resources)%nat then Some resources else None), w')
    | (Thrown msg, w') => (Thrown msg, w')
    end.
Proof.
  intros Hp. unfold parseAndResolveResources.
  rewrite (parsed_nonempty _ _ Hp). simpl.
  unfold bind at 1. unfold JSON_parse. rewrite Hp.
  unfold bind, ret. by destruct (loop _ _ _ _) as [[]].
Qed.

Lemma resolve_resolvable (input : jsstring) (items : list json) (w : World) :
  Json.parse input = Some (JArray items) ->
  forallb (resolvable (files w)) items = true ->
  parseAndResolveResources input w
  = (Returned (match items with
               | [] => None
               | _ :: _ => Some (map (output_of (files w)) items)
               end),
     mkWorld (files w) (calls w ++ ParseCall input :: flat_map item_reads items)).
Proof.
  intros Hp Hall. rewrite (resolve_array _ _ _ Hp).
  unfold record_call. rewrite (loop_all_resolvable _ _ _ Hall).
  rewrite <- app_assoc. simpl. by destruct items.
Qed.

(** ** The properties of the specification *)

(** C1 (as amended).  For every input that parses as a non-empty JSON array
    whose elements are all valid resource specs with readable files, the
    function returns a sequence of the same length, in the order of the
    array, whose element [i] is produced from element [i] of the input: the
    same name, the resolved literal body, and [visibleToCustomers] as given,
    or [true] when omitted.  The only reads are those of the path-backed
    elements, in order. *)
Theorem resolve_valid_array (w : World) (input : jsstring) (items : list json) :
  Json.parse input = Some (JArray items) ->
  items <> [] ->
  forallb (resolvable (files w)) items = true ->
  exists out,
    parseAndResolveResources input w
    = (Returned (Some out),
       mkWorld (files w) (calls w ++ ParseCall input :: flat_map item_reads items))
    /\ length out = length items
    /\ Forall2 (produced_from (files w)) items out.
Proof.
  intros Hp Hne Hall. exists (map (output_of (files w)) items).
  rewrite (resolve_resolvable _ _ _ Hp Hall).
  split; [by destruct items|]. split; [by rewrite length_map|].
  clear Hp Hne. induction items as [|item items IH]; simpl; [constructor|].
  apply andb_prop in Hall as [Hi Hall].
  constructor; [by apply output_of_produced|by apply IH].
Qed.

(** C1 as stated fails on the empty array: it parses as an array whose
    elements are all valid, yet the result is [undefined], not a sequence
    of length zero. *)
Lemma resolve_empty_array_absent :
  Json.parse (q "[]") = Some (JArray [])
  /\ forallb (resolvable (files w0)) [] = true
  /\ fst (parseAndResolveResources (q "[]") w0) = Returned None
  /\ fst (parseAndResolveResources (q "[]") w0) <> Returned (Some []).
Proof. repeat split; try reflexivity. discriminate. Qed.

(** C3 (as amended).  When the first element that cannot be resolved, be it
    an invalid element or a valid one whose file cannot be read, is at
    index [k], the function throws an error that starts with
    [Resource [k]], and the error is the same whatever follows that
    element: nothing after it is validated or read, and no list is
    returned. *)
Theorem first_failure_wins (w : World) (input : jsstring) (pre : list json)
    (bad : json) (post : list json) :
  Json.parse input = Some (JArray (pre ++ bad :: post)) ->
  forallb (resolvable (files w)) pre = true ->
  resolvable (files w) bad = false ->
  exists msg evs,
    parseAndResolveResources input w
    = (Thrown msg,
       mkWorld (files w) (calls w ++ ParseCall input :: flat_map item_reads pre ++ evs))
    /\ starts_with (at_index (length pre)) msg
    /\ forall input' post',
         Json.parse input' = Some (JArray (pre ++ bad :: post')) ->
         parseAndResolveResources input' w
         = (Thrown msg,
            mkWorld (files w)
              (calls w ++ ParseCall input' :: flat_map item_reads pre ++ evs)).
Proof.
  intros Hp Hpre Hbad.
  destruct (loop_first_failure (files w) pre bad [] Hpre Hbad) as (msg & evs & Hs & E).
  assert (forall input' post',
    Json.parse input' = Some (JArray (pre ++ bad :: post')) ->
    parseAndResolveResources input' w
    = (Thrown msg,
       mkWorld (files w)
         (calls w ++ ParseCall input' :: flat_map item_reads pre ++ evs))) as Hall.
  { intros input' post' Hp'. rewrite (resolve_array _ _ _ Hp').
    unfold record_call. simpl.
    rewrite (framed_loop _ 0 [] (files w)). unfold fresh. rewrite (E post'). simpl.
    by rewrite <- app_assoc. }
  exists msg, evs. repeat split; [by apply (Hall input post)|done|done].
Qed.

(** C3 as worded fails: the error is that of the first element the loop
    cannot resolve, which need not be the first invalid one.  In
    [unreadable_then_unnamed] element 0 is a valid spec and element 1 is
    the first invalid one, yet the file of element 0 cannot be read, so
    the error references index 0 and no error referencing index 1 is
    thrown. *)
Lemma first_invalid_not_referenced :
  Json.parse unreadable_then_unnamed
  = Some (JArray ([item_at 0 unreadable_then_unnamed]
                  ++ item_at 1 unreadable_then_unnamed :: []))
  /\ forallb valid_spec [item_at 0 unreadable_then_unnamed] = true
  /\ valid_spec (item_at 1 unreadable_then_unnamed) = false
  /\ fst (parseAndResolveResources unreadable_then_unnamed w0)
     = Thrown (q "Resource [0] 'a': failed to read file 'missing.txt': ENOENT: no such file or directory")
  /\ ~ (exists msg,
          fst (parseAndResolveResources unreadable_then_unnamed w0) = Thrown msg
          /\ starts_with (at_index 1) msg).
Proof.
  assert (fst (parseAndResolveResources unreadable_then_unnamed w0)
          = Thrown (q "Resource [0] 'a': failed to read file 'missing.txt': ENOENT: no such file or directory"))
    as E by (vm_compute; reflexivity).
  repeat split; try (vm_compute; reflexivity).
  intros (msg & Hmsg & rest & Hrest). rewrite E in Hmsg.
  injection Hmsg as <-. vm_compute in Hrest. discriminate Hrest.
Qed.

(** C4.  When an element that passed validation names a path whose read
    fails, the function throws the error that names the element's index,
    its name, the path and the cause; the failed read is the last call
    made, so nothing after the element is processed and no list is
    returned. *)
Theorem read_failure_stops (w : World) (input : jsstring) (pre : list json)
    (item : json) (post : list json) (nm path cause : jsstring) :
  Json.parse input = Some (JArray (pre ++ item :: post)) ->
  forallb (resolvable (files w)) pre = true ->
  valid_spec item = true ->
  hasPath item = true ->
  get item (js "name") = Some (JString nm) ->
  get item (js "path") = Some (JString path) ->
  files w path = ReadErr cause ->
  parseAndResolveResources input w
  = (Thrown (at_index (length pre) ++ js " " ++ quoted nm
             ++ js ": failed to read file " ++ quoted path ++ js ": " ++ cause),
     mkWorld (files w)
       (calls w ++ ParseCall input :: flat_map item_reads pre ++ [ReadCall path])).
Proof.
  intros Hp Hpre Hv Hpath Hnm Hpa Hf.
  rewrite (resolve_array _ _ _ Hp). unfold record_call. simpl.
  rewrite (loop_resolvable _ pre 0 [] _ _ Hpre). simpl.
  unfold bind. rewrite (loop_body_path _ _ _ item Hv Hpath).
  rewrite Hnm, Hpa. simpl. rewrite Hf.
  unfold Msg.read_failed, at_item, quoted. by rewrite <- !app_assoc.
Qed.

(** C2 (as amended).  For an element that is reached (all earlier elements
    resolved) and that passed the checks on its shape: when both
    [hasContent] and [hasPath] hold the function throws the error that says
    to specify either content or path, not both, and when neither holds it
    throws the error that says either is required; both name the element's
    index and name, and no file is read for the element. *)
Theorem both_or_neither_refused (w : World) (input : jsstring) (pre : list json)
    (item : json) (post : list json) (nm : jsstring) :
  Json.parse input = Some (JArray (pre ++ item :: post)) ->
  forallb (resolvable (files w)) pre = true ->
  well_typed item = true ->
  get item (js "name") = Some (JString nm) ->
  (hasContent item = true -> hasPath item = true ->
   parseAndResolveResources input w
   = (Thrown (at_index (length pre) ++ js " " ++ quoted nm ++ js ": specify either "
              ++ quoted (js "content") ++ js " or " ++ quoted (js "path")
              ++ js ", not both"),
      mkWorld (files w) (calls w ++ ParseCall input :: flat_map item_reads pre)))
  /\ (hasContent item = false -> hasPath item = false ->
      parseAndResolveResources input w
      = (Thrown (at_index (length pre) ++ js " " ++ quoted nm ++ js ": either "
                 ++ quoted (js "content") ++ js " or " ++ quoted (js "path")
                 ++ js " is required"),
         mkWorld (files w) (calls w ++ ParseCall input :: flat_map item_reads pre))).
Proof.
  intros Hp Hpre Ht Hnm.
  rewrite (resolve_array _ _ _ Hp). unfold record_call. simpl.
  rewrite (loop_resolvable _ pre 0 [] _ _ Hpre). simpl. unfold bind.
  split; intros Hc Hpa.
  - rewrite (loop_body_both _ _ item Ht Hc Hpa), Hnm. simpl.
    unfold Msg.both, at_item, quoted. by rewrite <- !app_assoc.
  - rewrite (loop_body_neither _ _ item Ht Hc Hpa), Hnm. simpl.
    unfold Msg.neither, at_item, quoted. by rewrite <- !app_assoc.
Qed.

(** *** Blank inputs that are not empty *)

Section BlankInput.

#[local] Transparent trim.

Lemma trimStart_head (s : jsstring) :
  trimStart s = []
  \/ exists c rest, trimStart s = c :: rest /\ is_trim_space c = false.
Proof.
  induction s as [|c s IH]; simpl; [by left|].
  destruct (is_trim_space c) eqn:E; [done|]. right. by exists c, s.
Qed.

Lemma trimStart_nil_blank (s : jsstring) :
  trimStart s = [] -> forallb is_trim_space s = true.
Proof.
  induction s as [|c s IH]; simpl; [done|].
  destruct (is_trim_space c); [done|discriminate].
Qed.

Lemma trim_nil_blank (s : jsstring) :
  trim s = [] -> forallb is_trim_space s = true.
Proof.
  unfold trim, trimEnd. intros H.
  destruct (trimStart_head s) as [E|(c & rest & E & Hc)];
    [by apply trimStart_nil_blank|].
  assert (trimStart (rev (trimStart s)) = []) as H'.
  { destruct (trimStart (rev (trimStart s))) as [|x l]; [done|].
    simpl in H. by destruct (rev l). }
  apply trimStart_nil_blank in H'. rewrite E in H'.
  rewrite forallb_forall in H'.
  specialize (H' c). rewrite H' in Hc; [discriminate|].
  apply in_rev. rewrite rev_involutive. by left.
Qed.

(** A code unit that [trim] strips starts no JSON value: it is skipped
    when it is JSON whitespace and refused otherwise. *)
Lemma step_blank (c : N) :
  is_trim_space c = true ->
  Json.step (Json.PState Json.LNone Json.PValue []) c = None
  \/ Json.step (Json.PState Json.LNone Json.PValue []) c
     = Some (Json.PState Json.LNone Json.PValue []).
Proof.
  intros Hc. unfold Json.step, Json.step_none. simpl.
  destruct (Json.is_ws c); [by right|]. left.
  repeat match goal with
         | |- context [c =? ?k] =>
             destruct (N.eqb_spec c k) as [->|_]; [by vm_compute in Hc|]
         end.
  destruct (Json.is_digit19 c) eqn:Hd; [|done].
  unfold Json.is_digit19 in Hd. unfold is_trim_space in Hc.
  apply andb_prop in Hd as [H1%N.leb_le H2%N.leb_le].
  repeat (apply orb_prop in Hc as [Hc|Hc]);
    try (apply N.eqb_eq in Hc; lia).
  apply andb_prop in Hc as [H3%N.leb_le H4%N.leb_le]. lia.
Qed.

Lemma run_blank (text : jsstring) :
  forallb is_trim_space text = true ->
  Json.run (Json.PState Json.LNone Json.PValue []) text = None
  \/ Json.run (Json.PState Json.LNone Json.PValue []) text
     = Some (Json.PState Json.LNone Json.PValue []).
Proof.
  induction text as [|c text IH]; intros H; [by right|].
  simpl in H. apply andb_prop in H as [Hc Ht]. cbn [Json.run].
  destruct (step_blank c Hc) as [-> | ->]; [by left|by apply IH].
Qed.

Lemma blank_not_json (input : jsstring) :
  trim input = [] -> Json.parse input = None.
Proof.
  intros H%trim_nil_blank. unfold Json.parse.
  by destruct (run_blank input H) as [-> | ->].
Qed.

(** Every blank input that is not empty is handed to the parser and
    refused as not valid JSON. *)
Lemma blank_input_refused (w : World) (input : jsstring) :
  input <> [] -> trim input = [] ->
  parseAndResolveResources input w
  = (Thrown Msg.not_json, record_call (ParseCall input) w).
Proof.
  intros Hne Hb. unfold parseAndResolveResources.
  destruct input as [|c rest]; [done|]. cbn [nonempty negb].
  unfold bind, JSON_parse. by rewrite (blank_not_json _ Hb).
Qed.

End BlankInput.

(** C5 (as amended).  For the empty input the function returns [undefined]
    at once: no call to the parser, no read, the world is left as it was.
    An input that is blank but not empty is handed to the parser, and the
    function throws the error that says it is not valid JSON. *)
Theorem empty_input_absent (w : World) :
  parseAndResolveResources [] w = (Returned None, w)
  /\ forall input,
       input <> [] -> trim input = [] ->
       parseAndResolveResources input w
       = (Thrown Msg.not_json, record_call (ParseCall input) w).
Proof.
  split; [reflexivity|]. intros input Hne Hb. by apply blank_input_refused.
Qed.

(** C5 as stated fails on a blank input that is not empty: a single space is
    handed to the parser, which rejects it, and the function throws. *)
Lemma blank_input_is_parsed :
  nonempty (js " ") = true
  /\ trim (js " ") = []
  /\ parseAndResolveResources (js " ") w0
     = (Thrown Msg.not_json, mkWorld (files w0) [ParseCall (js " ")]).
Proof. repeat split; reflexivity. Qed.

(** The outputs of a loop that ends normally: one more per element. *)
Lemma loop_length (items : list json) :
  forall i resources w out w',
    loop i items resources w = (Returned out, w') ->
    length out = (length resources + length items)%nat.
Proof.
  induction items as [|item items IH]; intros i resources w out w' H; simpl in *.
  - unfold ret in H. injection H as <- _. lia.
  - unfold bind in H. destruct (loop_body i item w) as [[r|msg] w1]; [|discriminate].
    apply IH in H. rewrite length_app in H. simpl in H. lia.
Qed.

(** C6.  After the loop has processed every element, the function returns
    [undefined] when the output sequence is empty, which happens exactly
    for the empty array, and the sequence otherwise; so a result that is
    not [undefined] is never an empty list. *)
Theorem absent_or_nonempty (w : World) (input : jsstring) :
  (forall out,
     fst (parseAndResolveResources input w) = Returned (Some out) -> out <> [])
  /\ (forall items resources w',
        Json.parse input = Some (JArray items) ->
        loop 0 items [] (record_call (ParseCall input) w) = (Returned resources, w') ->
        parseAndResolveResources input w
        = (Returned (match resources with [] => None | _ :: _ => Some resources end), w')
        /\ (resources = [] <-> items = [])).
Proof.
  split.
  - intros out. unfold parseAndResolveResources.
    destruct (nonempty input); [|discriminate]. simpl.
    unfold bind, JSON_parse.
    destruct (Json.parse input) as [[| | | |items|]|]; try discriminate.
    destruct (loop 0 items [] _) as [[resources|msg] w']; [|discriminate].
    unfold ret. simpl. destruct resources; [discriminate|].
    simpl. by intros [= <-].
  - intros items resources w' Hp Hl. rewrite (resolve_array _ _ _ Hp), Hl.
    split; [by destruct resources|].
    apply loop_length in Hl. simpl in Hl.
    split; intros ->; [by destruct items|by destruct resources].
Qed.

(** C7.  A valid element resolved from inline content stores the content
    string exactly as given: the blank check looked at the trimmed string,
    the stored value is not trimmed.  The element resolves without any read,
    and in the result of the function the resource at its position carries
    that content. *)
Theorem inline_content_kept (w : World) (i : nat) (item : json) (c : jsstring) :
  valid_spec item = true ->
  get item (js "content") = Some (JString c) ->
  nonempty (trim c) = true ->
  loop_body i item w = (Returned (resource_of item c), w)
  /\ content (resource_of item c) = c
  /\ forall input pre post,
       Json.parse input = Some (JArray (pre ++ item :: post)) ->
       forallb (resolvable (files w)) (pre ++ item :: post) = true ->
       exists out r,
         fst (parseAndResolveResources input w) = Returned (Some out)
         /\ out !! length pre = Some r
         /\ content r = c.
Proof.
  intros Hv Hc Hnb.
  assert (hasContent item = true) as Hhc.
  { unfold hasContent, non_blank_string. rewrite Hc. simpl. by rewrite Hnb. }
  assert (hasPath item = false) as Hhp.
  { unfold valid_spec in Hv. apply andb_prop in Hv as [_ Hx].
    rewrite Hhc in Hx. by destruct (hasPath item). }
  split; [|split; [done|]].
  - rewrite (loop_body_inline w i item Hv Hhp). by rewrite Hc.
  - intros input pre post Hp Hall.
    rewrite (resolve_resolvable _ _ _ Hp Hall).
    exists (map (output_of (files w)) (pre ++ item :: post)), (output_of (files w) item).
    split; [by destruct pre|]. split.
    + rewrite list_lookup_fmap, list_lookup_middle; done.
    + unfold output_of, body_of. by rewrite Hhp, Hc.
Qed.

(** C8.  Two calls with the same input and an unchanged file system have
    the same outcome: the second call, run in the world the first one left,
    returns or throws what the first did; so does a call in any world with
    the same files.  The call itself leaves the files as they were. *)
Theorem resolve_twice_same (w : World) (input : jsstring) :
  fst (parseAndResolveResources input (snd (parseAndResolveResources input w)))
  = fst (parseAndResolveResources input w)
  /\ files (snd (parseAndResolveResources input w)) = files w
  /\ forall w', files w' = files w ->
       fst (parseAndResolveResources input w')
       = fst (parseAndResolveResources input w).
Proof.
  assert (forall w1 w2, files w1 = files w2 ->
    fst (parseAndResolveResources input w1)
    = fst (parseAndResolveResources input w2)) as Hsame.
  { intros [fs1 cs1] [fs2 cs2]. simpl. intros ->.
    by rewrite (framed_parseAndResolveResources input fs2 cs1),
      (framed_parseAndResolveResources input fs2 cs2). }
  assert (files (snd (parseAndResolveResources input w)) = files w) as Hfiles.
  { destruct w as [fs cs]. by rewrite (framed_parseAndResolveResources input fs cs). }
  split; [by apply Hsame|]. split; [done|]. intros w' Hw. by apply Hsame.
Qed.

(** C9.  A name made of whitespace only is not empty, so the check on the
    name does not fire (it does not trim); when the rest of the element is
    fine the element resolves to a resource with that name as it is, and
    the result of the function carries it at the element's position. *)
Theorem blank_name_accepted (w : World) (item : json) (nm : jsstring) :
  get item (js "name") = Some (JString nm) ->
  nm <> [] ->
  trim nm = [] ->
  not_nonempty_string (get item (js "name")) = false
  /\ (resolvable (files w) item = true ->
      forall i, exists r w',
        loop_body i item w = (Returned r, w') /\ name r = nm)
  /\ forall input pre post,
       Json.parse input = Some (JArray (pre ++ item :: post)) ->
       forallb (resolvable (files w)) (pre ++ item :: post) = true ->
       exists out r,
         fst (parseAndResolveResources input w) = Returned (Some out)
         /\ out !! length pre = Some r
         /\ name r = nm.
Proof.
  intros Hnm Hne Hblank. split; [|split].
  - rewrite Hnm. simpl. by destruct nm.
  - intros Hr i. destruct w as [fs cs]. simpl in Hr.
    exists (output_of fs item), (mkWorld fs (cs ++ item_reads item)).
    split; [by apply loop_body_output|].
    unfold output_of, resource_of. simpl. by rewrite Hnm.
  - intros input pre post Hp Hall. rewrite (resolve_resolvable _ _ _ Hp Hall).
    exists (map (output_of (files w)) (pre ++ item :: post)), (output_of (files w) item).
    split; [by destruct pre|]. split.
    + rewrite list_lookup_fmap, list_lookup_middle; done.
    + unfold output_of, resource_of. simpl. by rewrite Hnm.
Qed.

(** One more key, not a recognized one, on an object. *)
Lemma extra_key_same_recognized (o : gmap jsstring json) (k : jsstring) (v : json) :
  k ∉ recognized -> same_recognized (JObject o) (JObject (<[k:=v]> o)).
Proof.
  intros Hk k' Hk'. rewrite lookup_insert_ne; [done|]. by intros ->.
Qed.

Lemma loop_body_same_recognized (i : nat) (a b : json) :
  same_recognized a b -> loop_body i a = loop_body i b.
Proof.
  destruct a as [| | | | |oa], b as [| | | | |ob]; simpl; try congruence.
  intros H.
  assert (forall k, k ∈ recognized -> get (JObject oa) k = get (JObject ob) k) as Hg
    by exact H.
  unfold loop_body, hasContent, hasPath.
  rewrite !(Hg (js "name")), !(Hg (js "content")), !(Hg (js "path")),
    !(Hg (js "visibleToCustomers")) by (unfold recognized; set_solver).
  reflexivity.
Qed.

Lemma loop_same_recognized (xs ys : list json) :
  Forall2 same_recognized xs ys ->
  forall i resources w, loop i xs resources w = loop i ys resources w.
Proof.
  induction 1 as [|a b xs ys Hab _ IH]; intros i resources w; simpl; [done|].
  unfold bind. rewrite (loop_body_same_recognized i a b Hab).
  destruct (loop_body i b w) as [[r|msg] w1]; [apply IH|done].
Qed.

(** C10.  Two inputs whose arrays differ only in unrecognized keys of their
    elements have the same outcome, and cause the same reads: only [name],
    [content], [path] and [visibleToCustomers] are looked at, and any other
    key is ignored, never refused. *)
Theorem unrecognized_keys_ignored (w : World) (input1 input2 : jsstring)
    (items1 items2 : list json) :
  Json.parse input1 = Some (JArray items1) ->
  Json.parse input2 = Some (JArray items2) ->
  Forall2 same_recognized items1 items2 ->
  fst (parseAndResolveResources input1 w) = fst (parseAndResolveResources input2 w)
  /\ exists reads,
       calls (snd (parseAndResolveResources input1 w))
       = calls w ++ ParseCall input1 :: reads
       /\ calls (snd (parseAndResolveResources input2 w))
          = calls w ++ ParseCall input2 :: reads.
Proof.
  intros Hp1 Hp2 Hsame.
  rewrite (resolve_array _ _ _ Hp1), (resolve_array _ _ _ Hp2).
  destruct w as [fs cs]. unfold record_call. simpl.
  rewrite (framed_loop items1 0 [] fs (cs ++ [ParseCall input1])).
  rewrite (framed_loop items2 0 [] fs (cs ++ [ParseCall input2])).
  rewrite (loop_same_recognized _ _ Hsame 0 [] (fresh fs)).
  destruct (loop 0 items2 [] (fresh fs)) as [[resources|msg] [fs' reads]]; simpl.
  all: split; [done|]; exists reads; by rewrite <- !app_assoc.
Qed.

(** ** The scenarios of the specification *)

Section Scenarios.

Example scenario_empty : fst (parseAndResolveResources (q "") w0) = Returned None.
Proof. reflexivity. Qed.

Example scenario_empty_array : fst (parseAndResolveResources (q "[]") w0) = Returned None.
Proof. reflexivity. Qed.

Example scenario_inline :
  fst (parseAndResolveResources one_inline w0)
  = Returned (Some [mkResource (js "a") (js "hello") true]).
Proof. vm_compute. reflexivity. Qed.

Example scenario_both :
  fst (parseAndResolveResources both_given w0)
  = Thrown (q "Resource [0] 'a': specify either 'content' or 'path', not both").
Proof. vm_compute. reflexivity. Qed.

Example scenario_missing_file :
  fst (parseAndResolveResources missing_file w0)
  = Thrown (q "Resource [0] 'a': failed to read file 'missing.txt': ENOENT: no such file or directory").
Proof. vm_compute. reflexivity. Qed.

Example scenario_hidden :
  fst (parseAndResolveResources hidden w0)
  = Returned (Some [mkResource (js "a") (js "x") false]).
Proof. vm_compute. reflexivity. Qed.

Example scenario_not_json :
  fst (parseAndResolveResources (q "[{'name':'a',}]") w0) = Thrown Msg.not_json.
Proof. vm_compute. reflexivity. Qed.

(** An unreadable file counts as a failure like any other: the error is
    that of the first element the loop cannot resolve. *)
Example scenario_read_failure_first :
  fst (parseAndResolveResources (q "[{'name':'a','path':'missing.txt'},{'name':''}]") w0)
  = Thrown (q "Resource [0] 'a': failed to read file 'missing.txt': ENOENT: no such file or directory").
Proof. vm_compute. reflexivity. Qed.

Example scenario_not_array :
  fst (parseAndResolveResources (q "{'name':'a'}") w0) = Thrown Msg.not_array.
Proof. vm_compute. reflexivity. Qed.

End Scenarios.

Ltac by_evaluation := vm_compute; first [reflexivity | discriminate | done].

Lemma resolve_valid_array_witness :
  exists out,
    parseAndResolveResources file_then_inline w0
    = (Returned (Some out),
       mkWorld (files w0)
         (calls w0 ++ ParseCall file_then_inline
            :: flat_map item_reads (parsed_items file_then_inline)))
    /\ length out = length (parsed_items file_then_inline)
    /\ Forall2 (produced_from (files w0)) (parsed_items file_then_inline) out.
Proof.
  apply (resolve_valid_array w0 file_then_inline (parsed_items file_then_inline)).
  - by_evaluation.
  - by_evaluation.
  - by_evaluation.
Defined.

(** C2 as stated fails on an element whose [content] is a number: neither
    [hasContent] nor [hasPath] holds, yet the error is the one about the
    type of [content], not the one that says either is required. *)
Lemma mistyped_content_is_not_neither :
  Json.parse number_content = Some (JArray [item_at 0 number_content])
  /\ hasContent (item_at 0 number_content) = false
  /\ hasPath (item_at 0 number_content) = false
  /\ fst (parseAndResolveResources number_content w0)
     = Thrown (q "Resource [0] 'a': 'content' must be a string when provided")
  /\ fst (parseAndResolveResources number_content w0)
     <> Thrown (Msg.neither 0 (js "a")).
Proof. repeat split; by_evaluation. Qed.

Lemma both_or_neither_refused_witness :
  fst (parseAndResolveResources both_given w0)
  = Thrown (q "Resource [0] 'a': specify either 'content' or 'path', not both")
  /\ fst (parseAndResolveResources none_given w0)
     = Thrown (q "Resource [0] 'a': either 'content' or 'path' is required").
Proof.
  split.
  - destruct (both_or_neither_refused w0 both_given [] (item_at 0 both_given) []
                (js "a")) as [H _]; [by_evaluation..|].
    rewrite H; by_evaluation.
  - destruct (both_or_neither_refused w0 none_given [] (item_at 0 none_given) []
                (js "a")) as [_ H]; [by_evaluation..|].
    rewrite H; by_evaluation.
Defined.

Lemma first_failure_wins_witness :
  exists msg,
    fst (parseAndResolveResources bad_in_the_middle w0) = Thrown msg
    /\ starts_with (q "Resource [1]") msg.
Proof.
  destruct (first_failure_wins w0 bad_in_the_middle
              (before 1 bad_in_the_middle) (item_at 1 bad_in_the_middle)
              (after 1 bad_in_the_middle)) as (msg & evs & E & Hs & _);
    [by_evaluation..|].
  exists msg. rewrite E. split; [done|exact Hs].
Defined.

Lemma read_failure_stops_witness :
  parseAndResolveResources unreadable_second w0
  = (Thrown (q "Resource [1] 'b': failed to read file 'missing.txt': ENOENT: no such file or directory"),
     mkWorld (files w0)
       [ParseCall unreadable_second; ReadCall (js "f.txt"); ReadCall (js "missing.txt")]).
Proof.
  rewrite (read_failure_stops w0 unreadable_second
             (before 1 unreadable_second) (item_at 1 unreadable_second)
             (after 1 unreadable_second) (js "b") (js "missing.txt")
             (js "ENOENT: no such file or directory")); by_evaluation.
Defined.

Lemma inline_content_kept_witness :
  trim (js "  hi  ") <> js "  hi  "
  /\ exists out r,
       fst (parseAndResolveResources padded_content w0) = Returned (Some out)
       /\ out !! 0%nat = Some r
       /\ content r = js "  hi  ".
Proof.
  split; [by_evaluation|].
  destruct (inline_content_kept w0 0 (item_at 0 padded_content) (js "  hi  "))
    as (_ & _ & H); [by_evaluation..|].
  apply (H padded_content [] []); by_evaluation.
Defined.

Lemma blank_name_accepted_witness :
  exists out r,
    fst (parseAndResolveResources blank_name w0) = Returned (Some out)
    /\ out !! 0%nat = Some r
    /\ name r = js " ".
Proof.
  destruct (blank_name_accepted w0 (item_at 0 blank_name) (js " "))
    as (_ & _ & H); [by_evaluation..|].
  apply (H blank_name [] []); by_evaluation.
Defined.

Lemma unrecognized_keys_ignored_witness :
  fst (parseAndResolveResources plain w0) = fst (parseAndResolveResources with_extra w0)
  /\ exists reads,
       calls (snd (parseAndResolveResources plain w0))
       = calls w0 ++ ParseCall plain :: reads
       /\ calls (snd (parseAndResolveResources with_extra w0))
          = calls w0 ++ ParseCall with_extra :: reads.
Proof.
  apply (unrecognized_keys_ignored w0 plain with_extra
           (parsed_items plain) (parsed_items with_extra)); [by_evaluation..|].
  let a := eval vm_compute in (parsed_items plain) in
  let b := eval vm_compute in (parsed_items with_extra) in
  change (Forall2 same_recognized a b).
  constructor; [|constructor].
  intros k Hk. unfold recognized in Hk.
  repeat (apply elem_of_cons in Hk as [->|Hk]); [by_evaluation..|].
  by apply elem_of_nil in Hk.
Defined.

Lemma empty_input_absent_witness :
  parseAndResolveResources (q "") w0 = (Returned None, w0)
  /\ fst (parseAndResolveResources [9; 10; 32; 160] w0) = Thrown Msg.not_json.
Proof.
  destruct (empty_input_absent w0) as [E H]. split; [exact E|].
  rewrite (H [9; 10; 32; 160]); by_evaluation.
Defined.

Lemma absent_or_nonempty_witness :
  fst (parseAndResolveResources (q "[]") w0) = Returned None
  /\ exists out,
       fst (parseAndResolveResources file_then_inline w0) = Returned (Some out)
       /\ out <> [].
Proof.
  split.
  - destruct (absent_or_nonempty w0 (q "[]")) as [_ H].
    destruct (H [] [] (record_call (ParseCall (q "[]")) w0)) as [E _];
      [by_evaluation..|].
    by rewrite E.
  - destruct (absent_or_nonempty w0 file_then_inline) as [H _].
    eexists. split; [vm_compute; reflexivity|]. apply H. by_evaluation.
Defined.

Lemma resolve_twice_same_witness :
  fst (parseAndResolveResources unreadable_second
         (snd (parseAndResolveResources unreadable_second w0)))
  = fst (parseAndResolveResources unreadable_second w0).
Proof. destruct (resolve_twice_same w0 unreadable_second) as [H _]. exact H. Defined.


(** ** More on the resolver: what it refuses, and why *)

Section Refusals.

Variable w : World.
Variables (input : jsstring) (pre : list json) (item : json) (post : list json).
Hypothesis parsed : Json.parse input = Some (JArray (pre ++ item :: post)).
Hypothesis earlier_resolved : forallb (resolvable (files w)) pre = true.

(** Where the loop stands when it reaches [item]. *)
Lemma resolve_reaches :
  parseAndResolveResources input w
  = match loop_body (length pre) item
            (mkWorld (files w)
               (calls w ++ ParseCall input :: flat_map item_reads pre)) with
    | (Returned r, w1) =>
        match loop (S (length pre)) post (map (output_of (files w)) pre ++ [r]) w1 with
        | (Returned out, w2) =>
            (Returned (if (0 <? length out)%nat then Some out else None), w2)
        | (Thrown msg, w2) => (Thrown msg, w2)
        end
    | (Thrown msg, w1) => (Thrown msg, w1)
    end.
Proof.
  rewrite (resolve_array _ _ _ parsed). unfold record_call. simpl.
  rewrite (loop_resolvable _ pre 0 [] _ _ earlier_resolved). simpl.
  rewrite <- app_assoc. simpl. unfold bind.
  by destruct (loop_body _ _ _) as [[r|msg] w1].
Qed.

(** X2.  An element that is not a plain object: [null], an array, a string, a
    number or a boolean. *)
Theorem non_object_refused :
  (forall o, item <> JObject o) ->
  parseAndResolveResources input w
  = (Thrown (at_index (length pre) ++ js ": must be a JSON object"),
     mkWorld (files w) (calls w ++ ParseCall input :: flat_map item_reads pre)).
Proof.
  intros Hno. rewrite resolve_reaches. unfold loop_body.
  destruct item as [| | | | |o]; try reflexivity. by destruct (Hno o).
Qed.

(** X3.  An object without a usable name: the key is missing, or its value is
    not a string, or it is the empty string.  Nothing else of the element
    is looked at. *)
Theorem unnamed_refused (o : gmap jsstring json) :
  item = JObject o ->
  name_ok (o !! js "name") = false ->
  parseAndResolveResources input w
  = (Thrown (at_index (length pre) ++ js ": " ++ quoted (js "name")
             ++ js " is required and must be a string"),
     mkWorld (files w) (calls w ++ ParseCall input :: flat_map item_reads pre)).
Proof.
  intros E Hn. rewrite resolve_reaches, E. unfold loop_body.
  rewrite name_ok_check in Hn. apply negb_false_iff in Hn.
  simpl. by rewrite Hn.
Qed.

(** X4.  A field of the wrong type, [null] included, is refused by name, in the
    order [content], [path], [visibleToCustomers], and before the test for
    both or neither body. *)
Theorem mistyped_field_refused (o : gmap jsstring json) (nm : jsstring) :
  item = JObject o ->
  o !! js "name" = Some (JString nm) ->
  nm <> [] ->
  let here := mkWorld (files w) (calls w ++ ParseCall input :: flat_map item_reads pre) in
  (string_if_present (o !! js "content") = false ->
   parseAndResolveResources input w = (Thrown (Msg.content_type (length pre) nm), here))
  /\ (string_if_present (o !! js "content") = true ->
      string_if_present (o !! js "path") = false ->
      parseAndResolveResources input w = (Thrown (Msg.path_type (length pre) nm), here))
  /\ (string_if_present (o !! js "content") = true ->
      string_if_present (o !! js "path") = true ->
      boolean_if_present (o !! js "visibleToCustomers") = false ->
      parseAndResolveResources input w = (Thrown (Msg.visible_type (length pre) nm), here)).
Proof.
  intros E Hnm Hne here. rewrite resolve_reaches, E. unfold loop_body.
  rewrite !string_if_present_check, boolean_if_present_check.
  simpl. rewrite Hnm. simpl.
  assert (nonempty nm = true) as -> by by destruct nm. simpl.
  repeat split.
  - intros ->%negb_false_iff. reflexivity.
  - intros ->%negb_true_iff ->%negb_false_iff. reflexivity.
  - intros ->%negb_true_iff ->%negb_true_iff ->%negb_false_iff. reflexivity.
Qed.

End Refusals.

(** ** More on the resolver: blank fields, paths and files *)

Section Bodies.

Variables (w : World) (i : nat) (item : json).
Hypothesis shaped : well_typed item = true.

(** X5.  A blank [path] beside a non-blank [content] counts as no path: the
    element resolves from its content and no file is read. *)
Theorem blank_path_ignored (c p : jsstring) :
  get item (js "content") = Some (JString c) ->
  nonempty (trim c) = true ->
  get item (js "path") = Some (JString p) ->
  trim p = [] ->
  loop_body i item w = (Returned (resource_of item c), w).
Proof.
  intros Hc Hnb Hp Hb.
  assert (hasContent item = true) as Hhc.
  { unfold hasContent, non_blank_string. rewrite Hc. simpl. by rewrite Hnb. }
  assert (hasPath item = false) as Hhp.
  { unfold hasPath, non_blank_string. rewrite Hp. simpl. by rewrite Hb. }
  rewrite (loop_body_inline w i item); [by rewrite Hc| |done].
  unfold valid_spec. by rewrite shaped, Hhc, Hhp.
Qed.

(** X6.  A path-backed element: the path handed to the file system is the string
    as given, not trimmed, whatever blank [content] stands beside it; the
    text of the file is stored as read, even when it is empty or blank. *)
Theorem path_read_as_given (p : jsstring) :
  hasContent item = false ->
  get item (js "path") = Some (JString p) ->
  nonempty (trim p) = true ->
  loop_body i item w
  = (match files w p with
     | ReadOk text => Returned (resource_of item text)
     | ReadErr cause =>
         Thrown (Msg.read_failed i (as_string (get item (js "name"))) p cause)
     end,
     record_call (ReadCall p) w).
Proof.
  intros Hhc Hp Hnb.
  assert (hasPath item = true) as Hhp.
  { unfold hasPath, non_blank_string. rewrite Hp. simpl. by rewrite Hnb. }
  destruct w as [fs cs].
  rewrite (loop_body_path fs cs i item); [by rewrite Hp| |done].
  unfold valid_spec. by rewrite shaped, Hhc, Hhp.
Qed.

End Bodies.

(** ** More on the resolver: what a result tells about the input *)

Lemma first_unresolvable (fs : jsstring -> read_result) (items : list json) :
  forallb (resolvable fs) items = false ->
  exists pre bad post,
    items = pre ++ bad :: post
    /\ forallb (resolvable fs) pre = true
    /\ resolvable fs bad = false.
Proof.
  induction items as [|item items IH]; simpl; [discriminate|].
  destruct (resolvable fs item) eqn:E; simpl.
  - intros (pre & bad & post & -> & Hpre & Hbad)%IH.
    exists (item :: pre), bad, post. simpl. by rewrite E, Hpre.
  - intros _. by exists [], item, items.
Qed.

Lemma forallb_produced (fs : jsstring -> read_result) (items : list json) :
  forallb (resolvable fs) items = true ->
  Forall2 (produced_from fs) items (map (output_of fs) items).
Proof.
  induction items as [|item items IH]; simpl; [constructor|].
  intros [Hi Hall]%andb_prop.
  constructor; [by apply output_of_produced|by apply IH].
Qed.

(** The three ways the function can end, read off the input: it returns
    [undefined] for the empty input and the empty array, a list for an
    array of resolvable elements, and throws in every other case. *)
Lemma resolve_cases (w : World) (input : jsstring) :
  (input = [] /\ fst (parseAndResolveResources input w) = Returned None)
  \/ (input <> [] /\ Json.parse input = None
      /\ fst (parseAndResolveResources input w) = Thrown Msg.not_json)
  \/ (exists v, Json.parse input = Some v /\ (forall items, v <> JArray items)
      /\ fst (parseAndResolveResources input w) = Thrown Msg.not_array)
  \/ (exists items, Json.parse input = Some (JArray items)
      /\ forallb (resolvable (files w)) items = true
      /\ fst (parseAndResolveResources input w)
         = Returned (match items with
                     | [] => None
                     | _ :: _ => Some (map (output_of (files w)) items)
                     end))
  \/ (exists pre bad post msg,
        Json.parse input = Some (JArray (pre ++ bad :: post))
        /\ forallb (resolvable (files w)) pre = true
        /\ resolvable (files w) bad = false
        /\ fst (parseAndResolveResources input w) = Thrown msg
        /\ starts_with (at_index (length pre)) msg).
Proof.
  destruct input as [|c rest]; [by left|]. right.
  destruct (Json.parse (c :: rest)) as [v|] eqn:Hp.
  - right. destruct v as [| | | |items|];
      try (left; eexists; split; [done|]; split; [by intros|];
           unfold parseAndResolveResources, bind, JSON_parse; simpl;
           by rewrite Hp).
    right. destruct (forallb (resolvable (files w)) items) eqn:Hall.
    + left. exists items. repeat split; [done|].
      by rewrite (resolve_resolvable _ _ _ Hp Hall).
    + right. apply first_unresolvable in Hall as (pre & bad & post & -> & Hpre & Hbad).
      destruct (loop_first_failure (files w) pre bad (calls w ++ [ParseCall (c :: rest)])
                  Hpre Hbad) as (msg & evs & Hs & E).
      exists pre, bad, post, msg. repeat split; try done.
      rewrite (resolve_array _ _ _ Hp). unfold record_call. by rewrite (E post).
  - left. repeat split; [done|].
    unfold parseAndResolveResources, bind, JSON_parse. simpl. by rewrite Hp.
Qed.

(** X7.  A list is returned only for an array all of whose elements are valid
    and readable, and it holds one resource per element, in order. *)
Theorem list_only_from_resolvable (w : World) (input : jsstring) (out : list Resource) :
  fst (parseAndResolveResources input w) = Returned (Some out) ->
  exists items,
    Json.parse input = Some (JArray items)
    /\ forallb (resolvable (files w)) items = true
    /\ Forall2 (produced_from (files w)) items out.
Proof.
  intros H.
  destruct (resolve_cases w input)
    as [[_ E]|[(_ & _ & E)|[(v & _ & _ & E)|[(items & Hp & Hall & E)|
        (pre & bad & post & msg & _ & _ & _ & E & _)]]]];
    rewrite E in H; try discriminate.
  exists items. split; [done|]. split; [done|].
  destruct items; [discriminate|]. injection H as <-.
  by apply forallb_produced.
Qed.

(** X8.  [undefined] is returned for the empty input and for the empty array,
    and for nothing else. *)
Theorem absent_exactly_when (w : World) (input : jsstring) :
  fst (parseAndResolveResources input w) = Returned None
  <-> input = [] \/ Json.parse input = Some (JArray []).
Proof.
  split.
  - intros H.
    destruct (resolve_cases w input)
      as [[E _]|[(_ & _ & E)|[(v & _ & _ & E)|[(items & Hp & Hall & E)|
          (pre & bad & post & msg & _ & _ & _ & E & _)]]]];
      try (rewrite E in H; discriminate); [by left|].
    right. rewrite E in H. by destruct items.
  - intros [-> | Hp]; [done|].
    by rewrite (resolve_resolvable _ [] _ Hp).
Qed.

(** X9.  Every error is one of the two errors about the input as a whole, or
    starts with the index of the first element that cannot be resolved. *)
Theorem errors_name_their_place (w : World) (input : jsstring) (msg : jsstring) :
  fst (parseAndResolveResources input w) = Thrown msg ->
  (msg = Msg.not_json /\ Json.parse input = None)
  \/ (msg = Msg.not_array
      /\ exists v, Json.parse input = Some v /\ forall items, v <> JArray items)
  \/ exists pre bad post,
       Json.parse input = Some (JArray (pre ++ bad :: post))
       /\ forallb (resolvable (files w)) pre = true
       /\ resolvable (files w) bad = false
       /\ starts_with (at_index (length pre)) msg.
Proof.
  intros H.
  destruct (resolve_cases w input)
    as [[_ E]|[(_ & Hp & E)|[(v & Hp & Hv & E)|[(items & Hp & Hall & E)|
        (pre & bad & post & msg' & Hp & Hpre & Hbad & E & Hs)]]]];
    rewrite E in H; try discriminate.
  - left. by injection H as <-.
  - right; left. injection H as <-. split; [done|]. by exists v.
  - right; right. injection H as <-. by exists pre, bad, post.
Qed.

(** X10.  The function parses its input once, unless it is empty, and then reads
    only paths that elements of the array name, in the order of the array
    and at most once per element; it stops reading at the first failure and
    never changes a file. *)
Theorem reads_follow_the_array (w : World) (input : jsstring) :
  files (snd (parseAndResolveResources input w)) = files w
  /\ exists reads,
       calls (snd (parseAndResolveResources input w))
       = calls w ++ (if nonempty input then ParseCall input :: reads else [])
       /\ reads `prefix_of` flat_map item_reads (parsed_items input).
Proof.
  split.
  { destruct w as [fs cs]. by rewrite (framed_parseAndResolveResources input fs cs). }
  destruct input as [|c rest].
  { exists []. split; [by rewrite app_nil_r|]. apply prefix_nil. }
  cbn [nonempty]. unfold parsed_items.
  destruct (Json.parse (c :: rest)) as [v|] eqn:Hp.
  - destruct v as [| | | |items|];
      try (exists []; split; [|apply prefix_nil];
           unfold parseAndResolveResources, bind, JSON_parse; simpl;
           by rewrite Hp).
    destruct (forallb (resolvable (files w)) items) eqn:Hall.
    + exists (flat_map item_reads items). split; [|done].
      by rewrite (resolve_resolvable _ _ _ Hp Hall).
    + apply first_unresolvable in Hall as (pre & bad & post & -> & Hpre & Hbad).
      rewrite (resolve_reaches w _ pre bad post Hp Hpre).
      pose proof (loop_body_reads (files w)
                    (calls w ++ ParseCall (c :: rest) :: flat_map item_reads pre)
                    (length pre) bad) as Hr.
      destruct (loop_body_unresolvable (files w)
                  (calls w ++ ParseCall (c :: rest) :: flat_map item_reads pre)
                  (length pre) bad Hbad) as (msg & evs & E & _).
      rewrite E in Hr |- *. simpl in Hr |- *. rewrite Hr.
      eexists. split; [by rewrite <- app_assoc|].
      rewrite flat_map_app. apply prefix_app. simpl.
      destruct (valid_spec bad); simpl; [|apply prefix_nil].
      destruct (hasPath bad) eqn:Hhp; [|apply prefix_nil].
      apply prefix_app_r. unfold item_reads. by rewrite Hhp.
  - exists []. split; [|apply prefix_nil].
    unfold parseAndResolveResources, bind, JSON_parse. simpl. by rewrite Hp.
Qed.

(** X1.  A non-empty input that is not JSON, or is JSON but not an array, is
    refused right after the parse: no element is looked at and no file is
    read. *)
Theorem refused_before_the_loop (w : World) (input : jsstring) :
  input <> [] ->
  (forall items, Json.parse input <> Some (JArray items)) ->
  parseAndResolveResources input w
  = (Thrown (match Json.parse input with
             | None => Msg.not_json
             | Some _ => Msg.not_array
             end),
     record_call (ParseCall input) w).
Proof.
  intros Hne Hna. unfold parseAndResolveResources, bind, JSON_parse.
  destruct input as [|c rest]; [done|]. simpl.
  destruct (Json.parse (c :: rest)) as [[| | | |items|]|] eqn:Hp; try reflexivity.
  by destruct (Hna items).
Qed.

Lemma refused_before_the_loop_witness :
  parseAndResolveResources an_object w0
  = (Thrown (q "Input 'resources' must be a JSON array"),
     mkWorld (files w0) [ParseCall an_object])
  /\ parseAndResolveResources trailing_comma w0
     = (Thrown (q "Input 'resources' is not valid JSON"),
        mkWorld (files w0) [ParseCall trailing_comma]).
Proof.
  split.
  - rewrite (refused_before_the_loop w0 an_object); by_evaluation.
  - rewrite (refused_before_the_loop w0 trailing_comma); by_evaluation.
Defined.

Lemma non_object_refused_witness :
  parseAndResolveResources null_element w0
  = (Thrown (q "Resource [1]: must be a JSON object"),
     mkWorld (files w0) [ParseCall null_element]).
Proof.
  rewrite (non_object_refused w0 null_element (before 1 null_element)
             (item_at 1 null_element) (after 1 null_element)); by_evaluation.
Defined.

Lemma unnamed_refused_witness :
  parseAndResolveResources no_name w0
  = (Thrown (q "Resource [0]: 'name' is required and must be a string"),
     mkWorld (files w0) [ParseCall no_name]).
Proof.
  rewrite (unnamed_refused w0 no_name [] (item_at 0 no_name) []
             ltac:(by_evaluation) ltac:(by_evaluation)
             (match item_at 0 no_name with JObject o => o | _ => ∅ end));
    by_evaluation.
Defined.

Lemma mistyped_field_refused_witness :
  parseAndResolveResources null_content w0
  = (Thrown (q "Resource [0] 'a': 'content' must be a string when provided"),
     mkWorld (files w0) [ParseCall null_content]).
Proof.
  destruct (mistyped_field_refused w0 null_content [] (item_at 0 null_content) []
              ltac:(by_evaluation) ltac:(by_evaluation)
              (match item_at 0 null_content with JObject o => o | _ => ∅ end)
              (js "a")) as [H _]; [by_evaluation..|].
  rewrite H; by_evaluation.
Defined.

Lemma blank_path_ignored_witness :
  loop_body 0 (item_at 0 blank_path) w0
  = (Returned (mkResource (js "a") (js "x") true), w0).
Proof.
  rewrite (blank_path_ignored w0 0 (item_at 0 blank_path) ltac:(by_evaluation)
             (js "x") (js "  ")); by_evaluation.
Defined.

Lemma path_read_as_given_witness :
  loop_body 0 (item_at 0 padded_path) w0
  = (Thrown (q "Resource [0] 'a': failed to read file ' f.txt ': ENOENT: no such file or directory"),
     mkWorld (files w0) [ReadCall (js " f.txt ")]).
Proof.
  rewrite (path_read_as_given w0 0 (item_at 0 padded_path) ltac:(by_evaluation)
             (js " f.txt ")); by_evaluation.
Defined.

Lemma list_only_from_resolvable_witness :
  exists items,
    Json.parse file_then_inline = Some (JArray items)
    /\ forallb (resolvable (files w0)) items = true
    /\ Forall2 (produced_from (files w0)) items
         [mkResource (js "a") (js "from file") true;
          mkResource (js "b") (js " x ") false].
Proof.
  apply (list_only_from_resolvable w0 file_then_inline). by_evaluation.
Defined.

Lemma absent_exactly_when_witness :
  fst (parseAndResolveResources (q " [ ] ") w0) = Returned None.
Proof.
  apply (absent_exactly_when w0 (q " [ ] ")). right. by_evaluation.
Defined.

Lemma errors_name_their_place_witness :
  exists pre bad post,
    Json.parse bad_in_the_middle = Some (JArray (pre ++ bad :: post))
    /\ forallb (resolvable (files w0)) pre = true
    /\ resolvable (files w0) bad = false
    /\ starts_with (at_index (length pre))
         (q "Resource [1]: 'name' is required and must be a string").
Proof.
  destruct (errors_name_their_place w0 bad_in_the_middle
              (q "Resource [1]: 'name' is required and must be a string"))
    as [[E _]|[[E _]|H]]; [by_evaluation| | |exact H].
  - vm_compute in E. discriminate.
  - vm_compute in E. discriminate.
Defined.

Lemma reads_follow_the_array_witness :
  exists reads,
    calls (snd (parseAndResolveResources unreadable_second w0))
    = calls w0 ++ ParseCall unreadable_second :: reads
    /\ reads `prefix_of` flat_map item_reads (parsed_items unreadable_second).
Proof.
  destruct (reads_follow_the_array w0 unreadable_second) as [_ H]. exact H.
Defined.

(** ** The action: single steps *)

Section Steps.

Variable env : Env.

Lemma rbind_done {A B} (m : R A) (k : A -> R B) (s s' : Run) (a : A) :
  m s = (Done a, s') -> rbind m k s = k a s'.
Proof. intros H. unfold rbind. by rewrite H. Qed.

Lemma rbind_raised {A B} (m : R A) (k : A -> R B) (s s' : Run) (e : thrown) :
  m s = (Raised e, s') -> rbind m k s = (Raised e, s').
Proof. intros H. unfold rbind. by rewrite H. Qed.

Lemma requiredInput_given (id : jsstring) (s : Run) :
  nonempty (getInput env id) = true ->
  requiredInput env id s = (Done (getInput env id), s).
Proof. intros H. unfold requiredInput. by rewrite H. Qed.

Lemma requiredInput_missing (id : jsstring) (s : Run) :
  getInput env id = [] ->
  requiredInput env id s = (Raised (ErrorObject (RunMsg.required id)), s).
Proof. intros H. unfold requiredInput. by rewrite H. Qed.

Lemma lift_run {A} (m : M A) (s : Run) :
  lift m s = (to_result (fst (m (world s))), mkRun (snd (m (world s))) (actions s)).
Proof. unfold lift. by destruct (m (world s)) as [[a|msg] w']. Qed.

Lemma read_text_run (path : jsstring) (s : Run) :
  read_text path s
  = (file_text (files (world s)) path,
     mkRun (record_call (ReadCall path) (world s)) (actions s)).
Proof.
  unfold read_text, file_text. rewrite lift_run.
  unfold bind, readFile. simpl. by destruct (files (world s) path).
Qed.

Lemma read_if_given_run (path : jsstring) (s : Run) :
  read_if_given path s
  = (optional_text (files (world s)) path,
     mkRun (if nonempty path then record_call (ReadCall path) (world s) else world s)
       (actions s)).
Proof.
  unfold read_if_given, optional_text. destruct (nonempty path); [|by destruct s].
  unfold rbind. rewrite read_text_run. unfold file_text.
  by destruct (files (world s) path).
Qed.

Lemma publish_id_run (version : Version) (s : Run) :
  publish_id version s
  = match version_id version with
    | Some (c :: vid) =>
        (Done (c :: vid),
         mkRun (world s) (actions s ++ [SetOutput (js "created-version-id") (c :: vid)]))
    | _ => (Raised (ErrorObject RunMsg.no_id), s)
    end.
Proof. unfold publish_id. by destruct (version_id version) as [[|c vid]|]. Qed.

Lemma info_each_run (targets : list SkippedTarget) (s : Run) :
  info_each targets s
  = (Done tt,
     mkRun (world s)
       (actions s ++ map (fun target => Info (RunMsg.skipped_line target)) targets)).
Proof.
  revert s. induction targets as [|target rest IH]; intros s; simpl.
  - rewrite app_nil_r. by destruct s.
  - unfold rbind, emit. rewrite IH. simpl. by rewrite <- app_assoc.
Qed.

(** The files are the same after the resolver, and its outcome depends on
    the files only. *)
Lemma files_after_resolve (input : jsstring) (w : World) :
  files (snd (parseAndResolveResources input w)) = files w.
Proof. destruct w as [fs cs]. by rewrite (framed_parseAndResolveResources input fs cs). Qed.

Lemma resolve_same_files (input : jsstring) (w w' : World) :
  files w' = files w ->
  fst (parseAndResolveResources input w') = fst (parseAndResolveResources input w).
Proof.
  destruct w as [fs cs], w' as [fs' cs']. simpl. intros ->.
  by rewrite (framed_parseAndResolveResources input fs cs),
    (framed_parseAndResolveResources input fs cs').
Qed.

End Steps.

(** ** The action: inputs that are required *)

(** X11.  The step stops at the first of [api-token], [application-id] and
    [version-name] that is empty: it is marked failed with the message that
    names the input, and nothing else happens, no read and no call to the
    backend. *)
Theorem run_stops_at_missing_input (env : Env) (st : Run) (id : jsstring) :
  id = js "api-token"
  \/ (id = js "application-id"
      /\ nonempty (getInput env (js "api-token")) = true)
  \/ (id = js "version-name"
      /\ nonempty (getInput env (js "api-token")) = true
      /\ nonempty (getInput env (js "application-id")) = true) ->
  getInput env id = [] ->
  run env st
  = (Done tt,
     mkRun (world st) (actions st ++ [SetFailed (js "Input " ++ id ++ js " is required")])).
Proof.
  intros Hid Hmissing. unfold run, try_catch, run_body.
  destruct Hid as [->|[[-> Htok]|(-> & Htok & Happ)]].
  - by rewrite (rbind_raised _ _ _ _ _ (requiredInput_missing env _ st Hmissing)).
  - rewrite (rbind_done _ _ _ _ _ (requiredInput_given env _ st Htok)). cbv beta zeta.
    by rewrite (rbind_raised _ _ _ _ _ (requiredInput_missing env _ st Hmissing)).
  - rewrite (rbind_done _ _ _ _ _ (requiredInput_given env _ st Htok)). cbv beta zeta.
    rewrite (rbind_done _ _ _ _ _ (requiredInput_given env _ st Happ)). cbv beta zeta.
    by rewrite (rbind_raised _ _ _ _ _ (requiredInput_missing env _ st Hmissing)).
Qed.

(** X12.  When [core.getBooleanInput] refuses the value of [update-deployments],
    the step fails with its message before the client is built: no file is
    read and nothing is asked of the backend. *)
Theorem run_bad_flag (env : Env) (st : Run) (message : jsstring) :
  nonempty (getInput env (js "api-token")) = true ->
  nonempty (getInput env (js "application-id")) = true ->
  nonempty (getInput env (js "version-name")) = true ->
  getBooleanInput env (js "update-deployments") = Raised (ErrorObject message) ->
  run env st = (Done tt, mkRun (world st) (actions st ++ [SetFailed message])).
Proof.
  intros Htok Happ Hname Hflag. unfold run, try_catch, run_body.
  rewrite (rbind_done _ _ _ _ _ (requiredInput_given env _ st Htok)). cbv beta zeta.
  rewrite (rbind_done _ _ _ _ _ (requiredInput_given env _ st Happ)).
  rewrite (rbind_done _ _ _ _ _ (requiredInput_given env _ st Hname)).
  unfold rbind at 1. by rewrite Hflag.
Qed.

(** ** The action: the roll-out *)

(** The roll-out, whatever the backend answers. *)
Lemma update_deployments_run (distr : Service) (appId versionId : jsstring)
    (s : Run) :
  update_deployments distr appId versionId s
  = match updateAllDeployments distr appId versionId with
    | Done result =>
        (Done tt,
         mkRun (world s)
           (actions s
            ++ [Info RunMsg.updating; UpdateAll appId versionId;
                Info (RunMsg.updated (length (updatedTargets result)))]
            ++ match skippedTargets result with
               | [] => []
               | _ :: _ =>
                   Info (RunMsg.skipped (length (skippedTargets result)))
                   :: map (fun target => Info (RunMsg.skipped_line target))
                        (skippedTargets result)
               end))
    | Raised e =>
        (Raised e,
         mkRun (world s) (actions s ++ [Info RunMsg.updating; UpdateAll appId versionId]))
    end.
Proof.
  unfold update_deployments, rbind, emit, answer. simpl.
  destruct (updateAllDeployments distr appId versionId) as [result|e]; simpl.
  - destruct (skippedTargets result) as [|target rest]; cbn -[info_each].
    + unfold rret. by rewrite <- !app_assoc.
    + rewrite info_each_run. cbn -[info_each]. by rewrite <- !app_assoc.
  - by rewrite <- !app_assoc.
Qed.

(** X20.  Lines 79-87.  When the backend answers the roll-out, the report is: the
    announcement, the number of updated targets and, only when some target
    was skipped, the number of skipped targets followed by one line per
    skipped target, in the order of the answer.  When the backend fails, the
    failure is passed on after the announcement and the call. *)
Theorem update_deployments_report (distr : Service) (appId versionId : jsstring)
    (s : Run) :
  (forall result,
     updateAllDeployments distr appId versionId = Done result ->
     update_deployments distr appId versionId s
     = (Done tt,
        mkRun (world s)
          (actions s
           ++ [Info RunMsg.updating; UpdateAll appId versionId;
               Info (RunMsg.updated (length (updatedTargets result)))]
           ++ match skippedTargets result with
              | [] => []
              | _ :: _ =>
                  Info (RunMsg.skipped (length (skippedTargets result)))
                  :: map (fun target => Info (RunMsg.skipped_line target))
                       (skippedTargets result)
              end)))
  /\ (forall e,
        updateAllDeployments distr appId versionId = Raised e ->
        update_deployments distr appId versionId s
        = (Raised e,
           mkRun (world s)
             (actions s ++ [Info RunMsg.updating; UpdateAll appId versionId]))).
Proof.
  split; intros r Hr; by rewrite update_deployments_run, Hr.
Qed.

(** ** The action: from the inputs to the backend *)

Section Ready.

Variables (env : Env) (st : Run) (distr : Service) (upd : bool).

Hypothesis token_given : nonempty (getInput env (js "api-token")) = true.
Hypothesis app_given : nonempty (getInput env (js "application-id")) = true.
Hypothesis name_given : nonempty (getInput env (js "version-name")) = true.
Hypothesis update_flag : getBooleanInput env (js "update-deployments") = Done upd.
Hypothesis client :
  DistrService env (or_undefined (getInput env (js "api-base")))
    (getInput env (js "api-token")) = Done distr.

Local Abbreviation token := (getInput env (js "api-token")).
Local Abbreviation appId := (getInput env (js "application-id")).
Local Abbreviation versionName := (getInput env (js "version-name")).
Local Abbreviation apiBase := (or_undefined (getInput env (js "api-base"))).
Local Abbreviation linkTemplate := (or_undefined (getInput env (js "link-template"))).
Local Abbreviation templatePath := (getInput env (js "template-file")).
Local Abbreviation resourcesInput := (getInput env (js "resources")).
Local Abbreviation composePath := (getInput env (js "compose-file")).

(** The world once the template was read, when one is given. *)
Local Abbreviation w_template :=
  (if nonempty templatePath
   then record_call (ReadCall templatePath) (world st)
   else world st).

(** The state in which the version is created. *)
Local Abbreviation s_resolved :=
  (mkRun (snd (parseAndResolveResources resourcesInput w_template))
     (actions st ++ [NewService apiBase token])).

Lemma files_w_template : files w_template = files (world st).
Proof. by destruct (nonempty templatePath). Qed.

Lemma files_s_resolved : files (world s_resolved) = files (world st).
Proof. cbn [world]. by rewrite files_after_resolve, files_w_template. Qed.

Lemma run_body_ready :
  run_body env st
  = match optional_text (files (world st)) templatePath with
    | Done templateFile =>
        match fst (parseAndResolveResources resourcesInput (world st)) with
        | Returned resources =>
            rbind
              (create_version env distr appId versionName templateFile linkTemplate
                 resources)
              (fun versionId =>
                 if upd then update_deployments distr appId versionId else rret tt)
              s_resolved
        | Thrown msg => (Raised (ErrorObject msg), s_resolved)
        end
    | Raised e => (Raised e, mkRun w_template (actions st ++ [NewService apiBase token]))
    end.
Proof.
  unfold run_body.
  rewrite (rbind_done _ _ _ _ _ (requiredInput_given env _ st token_given)).
  cbv beta zeta.
  rewrite (rbind_done _ _ _ _ _ (requiredInput_given env _ st app_given)).
  rewrite (rbind_done _ _ _ _ _ (requiredInput_given env _ st name_given)).
  unfold rbind at 1. rewrite update_flag.
  unfold rbind at 1, answer. rewrite client.
  unfold rbind at 1. rewrite read_if_given_run. cbn [world actions].
  destruct (optional_text (files (world st)) templatePath) as [templateFile|e];
    [|reflexivity].
  unfold rbind at 1. rewrite lift_run. cbn [world actions].
  rewrite (resolve_same_files resourcesInput (world st) w_template files_w_template).
  by destruct (fst (parseAndResolveResources resourcesInput (world st))).
Qed.

(** X14.  A resources input the resolver refuses fails the step with the
    resolver's message, after the client was built and the template read
    and before anything is asked of the backend: no version is created. *)
Theorem run_invalid_resources_creates_nothing (templateFile : option jsstring)
    (msg : jsstring) :
  optional_text (files (world st)) templatePath = Done templateFile ->
  fst (parseAndResolveResources resourcesInput (world st)) = Thrown msg ->
  exists w',
    run env st
    = (Done tt, mkRun w' (actions st ++ [NewService apiBase token; SetFailed msg]))
    /\ files w' = files (world st).
Proof.
  intros Ht Hr. unfold run, try_catch. rewrite run_body_ready, Ht, Hr.
  eexists. split; [unfold emit; cbn [world actions]; by rewrite <- app_assoc|].
  apply files_s_resolved.
Qed.

(** X13.  A template file that cannot be read fails the step with the message of
    the file system, before the resources are parsed: the only call besides
    the construction of the client is that read. *)
Theorem run_unreadable_template (cause : jsstring) :
  nonempty templatePath = true ->
  files (world st) templatePath = ReadErr cause ->
  run env st
  = (Done tt,
     mkRun (record_call (ReadCall templatePath) (world st))
       (actions st ++ [NewService apiBase token; SetFailed cause])).
Proof.
  intros Hgiven Hread. unfold run, try_catch. rewrite run_body_ready.
  unfold optional_text. rewrite Hgiven, Hread. unfold emit. cbn [world actions].
  by rewrite <- app_assoc.
Qed.

Section Resolved.

Variables (templateFile : option jsstring) (resources : option (list Resource)).
Hypothesis template_read :
  optional_text (files (world st)) templatePath = Done templateFile.
Hypothesis resources_resolved :
  fst (parseAndResolveResources resourcesInput (world st)) = Returned resources.

Lemma run_resolved :
  run env st
  = try_catch
      (rbind
         (create_version env distr appId versionName templateFile linkTemplate resources)
         (fun versionId =>
            if upd then update_deployments distr appId versionId else rret tt))
      (fun error =>
         match error with
         | ErrorObject message => emit (SetFailed message)
         | OtherValue => rret tt
         end)
      s_resolved.
Proof.
  unfold run, try_catch. by rewrite run_body_ready, template_read, resources_resolved.
Qed.

(** Once the call that creates the version was made: what follows does not
    depend on which of the two calls it was. *)
Section Creation.

Variables (call : action) (answered : result Version) (s_called : Run).

Hypothesis creation :
  create_version env distr appId versionName templateFile linkTemplate resources
    s_resolved
  = match answered with
    | Done version => publish_id version s_called
    | Raised e => (Raised e, s_called)
    end.
Hypothesis called : actions s_called = actions st ++ [NewService apiBase token; call].
Hypothesis same_files : files (world s_called) = files (world st).

Lemma created_without_id (version : Version) :
  answered = Done version ->
  version_id version = None \/ version_id version = Some [] ->
  exists w',
    run env st
    = (Done tt,
       mkRun w'
         (actions st
          ++ [NewService apiBase token; call;
              SetFailed (js "Created version does not have an ID")]))
    /\ files w' = files (world st).
Proof.
  intros Hanswer Hid. rewrite run_resolved. unfold try_catch, rbind.
  rewrite creation, Hanswer, publish_id_run.
  assert (match version_id version with
          | Some (c :: vid) =>
              (Done (c :: vid),
               mkRun (world s_called)
                 (actions s_called ++ [SetOutput (js "created-version-id") (c :: vid)]))
          | _ => (Raised (ErrorObject RunMsg.no_id), s_called)
          end = (Raised (ErrorObject RunMsg.no_id), s_called)) as ->
    by (by destruct Hid as [-> | ->]).
  unfold emit. rewrite called.
  eexists. split; [by rewrite <- app_assoc|]. apply same_files.
Qed.

Lemma created_rollout_failure (c : N) (vid message : jsstring) :
  upd = true ->
  answered = Done (mkVersion (Some (c :: vid))) ->
  updateAllDeployments distr appId (c :: vid) = Raised (ErrorObject message) ->
  exists w',
    run env st
    = (Done tt,
       mkRun w'
         (actions st
          ++ [NewService apiBase token; call;
              SetOutput (js "created-version-id") (c :: vid);
              Info RunMsg.updating;
              UpdateAll appId (c :: vid);
              SetFailed message]))
    /\ files w' = files (world st).
Proof.
  intros Hupd Hanswer Hroll. rewrite run_resolved. unfold try_catch, rbind.
  rewrite creation, Hanswer, publish_id_run. cbn [version_id world actions].
  rewrite Hupd, update_deployments_run, Hroll. unfold emit. cbn [world actions].
  rewrite called.
  eexists. split; [by rewrite <- !app_assoc|]. apply same_files.
Qed.

Lemma created_non_error :
  answered = Raised OtherValue ->
  exists w',
    run env st
    = (Done tt, mkRun w' (actions st ++ [NewService apiBase token; call]))
    /\ files w' = files (world st).
Proof.
  intros Hanswer. rewrite run_resolved. unfold try_catch, rbind.
  rewrite creation, Hanswer. unfold rret.
  exists (world s_called). split; [|apply same_files].
  rewrite <- called. by destruct s_called.
Qed.

End Creation.

(** X15.  A compose file that cannot be read fails the step with the message of
    the file system after the resources were resolved, and no version is
    created. *)
Theorem run_unreadable_compose_file (cause : jsstring) :
  nonempty composePath = true ->
  files (world st) composePath = ReadErr cause ->
  exists w',
    run env st
    = (Done tt, mkRun w' (actions st ++ [NewService apiBase token; SetFailed cause]))
    /\ files w' = files (world st).
Proof.
  intros Hgiven Hread. rewrite run_resolved. unfold try_catch, rbind, create_version.
  rewrite Hgiven. unfold rbind. rewrite read_text_run. unfold file_text.
  rewrite files_s_resolved, Hread. unfold emit. cbn [world actions].
  eexists. split; [by rewrite <- app_assoc|].
  unfold record_call. cbn [files]. apply files_s_resolved.
Qed.

Section ComposeFile.

Variable composeFile : jsstring.
Hypothesis compose_given : nonempty composePath = true.
Hypothesis compose_read : files (world st) composePath = ReadOk composeFile.

Local Abbreviation dockerParams :=
  (Docker.mkParams composeFile templateFile linkTemplate resources).

Local Abbreviation s_compose :=
  (mkRun (record_call (ReadCall composePath) (world s_resolved))
     (actions st ++ [NewService apiBase token; CreateDocker appId versionName dockerParams])).

Lemma create_version_compose :
  create_version env distr appId versionName templateFile linkTemplate resources
    s_resolved
  = match createDockerApplicationVersion distr appId versionName dockerParams with
    | Done version => publish_id version s_compose
    | Raised e => (Raised e, s_compose)
    end.
Proof.
  unfold create_version. rewrite compose_given.
  unfold rbind at 1. rewrite read_text_run. unfold file_text.
  rewrite files_s_resolved, compose_read. cbn [world actions].
  unfold rbind, answer. cbn [world actions]. rewrite <- app_assoc.
  by destruct (createDockerApplicationVersion _ _ _ _).
Qed.

Lemma files_s_compose : files (world s_compose) = files (world st).
Proof. cbn [world]. unfold record_call. cbn [files]. apply files_s_resolved. Qed.

(** X16.  With a compose file, the version is created from it: the backend gets
    the text of the compose file, the template, the link template and the
    resources exactly as the resolver returned them, and the id it answers
    becomes the output [created-version-id].  No chart input is asked for,
    and without [update-deployments] nothing else is done. *)
Theorem run_compose_path (c : N) (vid : jsstring) :
  upd = false ->
  createDockerApplicationVersion distr appId versionName dockerParams
  = Done (mkVersion (Some (c :: vid))) ->
  exists w',
    run env st
    = (Done tt,
       mkRun w'
         (actions st
          ++ [NewService apiBase token;
              CreateDocker appId versionName dockerParams;
              SetOutput (js "created-version-id") (c :: vid)]))
    /\ files w' = files (world st).
Proof.
  intros Hupd Hcreate. rewrite run_resolved. unfold try_catch, rbind.
  rewrite create_version_compose, Hcreate, publish_id_run. cbn [version_id world actions].
  rewrite Hupd. unfold rret.
  eexists. split; [by rewrite <- app_assoc|]. apply files_s_compose.
Qed.

End ComposeFile.

Section Chart.

Hypothesis no_compose : composePath = [].

Local Abbreviation chartVersion := (getInput env (js "chart-version")).
Local Abbreviation chartType := (getInput env (js "chart-type")).
Local Abbreviation chartUrl := (getInput env (js "chart-url")).
Local Abbreviation baseValuesPath := (getInput env (js "base-values-file")).

(** X18.  Without a compose file the chart inputs are required, in the order
    [chart-version], [chart-type], [chart-name] (for a chart of type
    [repository] only) and [chart-url]: the first that is empty fails the
    step with the message that names it, and no version is created. *)
Theorem chart_inputs_required (id : jsstring) :
  id = js "chart-version"
  \/ (id = js "chart-type" /\ nonempty chartVersion = true)
  \/ (id = js "chart-name" /\ nonempty chartVersion = true
      /\ chartType = js "repository")
  \/ (id = js "chart-url" /\ nonempty chartVersion = true
      /\ nonempty chartType = true
      /\ (same_text chartType (js "repository") = true ->
          nonempty (getInput env (js "chart-name")) = true)) ->
  getInput env id = [] ->
  exists w',
    run env st
    = (Done tt,
       mkRun w'
         (actions st
          ++ [NewService apiBase token;
              SetFailed (js "Input " ++ id ++ js " is required")]))
    /\ files w' = files (world st).
Proof.
  intros Hid Hmissing.
  rewrite run_resolved.
  unfold try_catch.
  assert (create_version env distr appId versionName templateFile linkTemplate resources
            s_resolved
          = (Raised (ErrorObject (RunMsg.required id)), s_resolved)) as E.
  { unfold create_version. rewrite no_compose. cbn [nonempty].
    destruct Hid as [->|[[-> Hcv]|[(-> & Hcv & Hct)|(-> & Hcv & Hct & Hcn)]]].
    - by rewrite (rbind_raised _ _ _ _ _ (requiredInput_missing env _ _ Hmissing)).
    - rewrite (rbind_done _ _ _ _ _ (requiredInput_given env _ _ Hcv)).
      by rewrite (rbind_raised _ _ _ _ _ (requiredInput_missing env _ _ Hmissing)).
    - rewrite (rbind_done _ _ _ _ _ (requiredInput_given env _ _ Hcv)).
      assert (nonempty chartType = true) as Hne by (by rewrite Hct).
      rewrite (rbind_done _ _ _ _ _ (requiredInput_given env _ _ Hne)).
      rewrite Hct at 1.
      assert (same_text (js "repository") (js "repository") = true) as -> by reflexivity.
      unfold rbind at 1.
      by rewrite (rbind_raised _ _ _ _ _ (requiredInput_missing env _ _ Hmissing)).
    - rewrite (rbind_done _ _ _ _ _ (requiredInput_given env _ _ Hcv)).
      rewrite (rbind_done _ _ _ _ _ (requiredInput_given env _ _ Hct)).
      unfold rbind at 1.
      destruct (same_text chartType (js "repository")).
      + rewrite (rbind_done _ _ _ _ _ (requiredInput_given env _ _ (Hcn eq_refl))).
        unfold rret.
        by rewrite (rbind_raised _ _ _ _ _ (requiredInput_missing env _ _ Hmissing)).
      + unfold rret.
        by rewrite (rbind_raised _ _ _ _ _ (requiredInput_missing env _ _ Hmissing)). }
  unfold rbind. rewrite E. unfold emit. cbn [world actions].
  eexists. split; [by rewrite <- app_assoc|]. apply files_s_resolved.
Qed.

(** X19.  Without a compose file the version is created from the chart: the
    backend gets the chart inputs, the text of the base values file when
    one is given, the template, the link template and the resources.  The
    chart name is passed only for a chart of type [repository]; for any
    other type it is left out, whatever the input [chart-name] holds. *)
Theorem run_chart_path (baseValuesFile : option jsstring) (c : N) (vid : jsstring) :
  upd = false ->
  nonempty chartVersion = true ->
  nonempty chartType = true ->
  (same_text chartType (js "repository") = true ->
   nonempty (getInput env (js "chart-name")) = true) ->
  nonempty chartUrl = true ->
  optional_text (files (world st)) baseValuesPath = Done baseValuesFile ->
  let k8sParams :=
    Kubernetes.mkParams
      (if same_text chartType (js "repository")
       then Some (getInput env (js "chart-name")) else None)
      chartVersion chartType chartUrl baseValuesFile templateFile linkTemplate
      resources in
  createKubernetesApplicationVersion distr appId versionName k8sParams
  = Done (mkVersion (Some (c :: vid))) ->
  exists w',
    run env st
    = (Done tt,
       mkRun w'
         (actions st
          ++ [NewService apiBase token;
              CreateKubernetes appId versionName k8sParams;
              SetOutput (js "created-version-id") (c :: vid)]))
    /\ files w' = files (world st).
Proof.
  intros Hupd Hcv Hct Hcn Hcu Hbv k8sParams Hcreate.
  rewrite run_resolved.
  unfold try_catch.
  assert (exists w',
    create_version env distr appId versionName templateFile linkTemplate resources
      s_resolved
    = (Done (c :: vid),
       mkRun w'
         (actions st
          ++ [NewService apiBase token;
              CreateKubernetes appId versionName k8sParams;
              SetOutput (js "created-version-id") (c :: vid)]))
    /\ files w' = files (world st)) as (w' & E & Hfiles).
  { unfold create_version. rewrite no_compose. cbn [nonempty].
    rewrite (rbind_done _ _ _ _ _ (requiredInput_given env _ _ Hcv)).
    rewrite (rbind_done _ _ _ _ _ (requiredInput_given env _ _ Hct)).
    unfold rbind at 1. subst k8sParams.
    destruct (same_text chartType (js "repository")).
    - rewrite (rbind_done _ _ _ _ _ (requiredInput_given env _ _ (Hcn eq_refl))).
      unfold rret.
      rewrite (rbind_done _ _ _ _ _ (requiredInput_given env _ _ Hcu)).
      unfold rbind at 1. rewrite read_if_given_run, files_s_resolved, Hbv.
      unfold rbind at 1, answer. rewrite Hcreate, publish_id_run.
      cbn [version_id world actions].
      eexists. split; [by rewrite <- !app_assoc|].
      destruct (nonempty baseValuesPath); apply files_s_resolved.
    - unfold rret.
      rewrite (rbind_done _ _ _ _ _ (requiredInput_given env _ _ Hcu)).
      unfold rbind at 1. rewrite read_if_given_run, files_s_resolved, Hbv.
      unfold rbind at 1, answer. rewrite Hcreate, publish_id_run.
      cbn [version_id world actions].
      eexists. split; [by rewrite <- !app_assoc|].
      destruct (nonempty baseValuesPath); apply files_s_resolved. }
  unfold rbind. rewrite E, Hupd. unfold rret. by exists w'.
Qed.

(** The chart inputs being given, the version is created by the chart
    call. *)
Lemma create_version_chart (baseValuesFile : option jsstring) :
  chart_inputs_given env = true ->
  optional_text (files (world st)) baseValuesPath = Done baseValuesFile ->
  create_version env distr appId versionName templateFile linkTemplate resources
    s_resolved
  = match createKubernetesApplicationVersion distr appId versionName
            (chart_params env baseValuesFile templateFile linkTemplate resources) with
    | Done version =>
        publish_id version
          (mkRun (if nonempty baseValuesPath
                  then record_call (ReadCall baseValuesPath) (world s_resolved)
                  else world s_resolved)
             (actions st
              ++ [NewService apiBase token;
                  CreateKubernetes appId versionName
                    (chart_params env baseValuesFile templateFile linkTemplate
                       resources)]))
    | Raised e =>
        (Raised e,
         mkRun (if nonempty baseValuesPath
                then record_call (ReadCall baseValuesPath) (world s_resolved)
                else world s_resolved)
           (actions st
            ++ [NewService apiBase token;
                CreateKubernetes appId versionName
                  (chart_params env baseValuesFile templateFile linkTemplate
                     resources)]))
    end.
Proof.
  unfold chart_inputs_given, chart_params. intros Hgiven Hbv.
  apply andb_prop in Hgiven as [[[Hcv Hct]%andb_prop Hcn]%andb_prop Hcu].
  unfold create_version. rewrite no_compose. cbn [nonempty].
  rewrite (rbind_done _ _ _ _ _ (requiredInput_given env _ _ Hcv)).
  rewrite (rbind_done _ _ _ _ _ (requiredInput_given env _ _ Hct)).
  unfold rbind at 1.
  destruct (same_text chartType (js "repository")).
  - rewrite (rbind_done _ _ _ _ _ (requiredInput_given env _ _ Hcn)).
    unfold rret.
    rewrite (rbind_done _ _ _ _ _ (requiredInput_given env _ _ Hcu)).
    unfold rbind at 1. rewrite read_if_given_run, files_s_resolved, Hbv.
    unfold rbind at 1, answer. cbn [world actions]. rewrite <- app_assoc.
    by destruct (createKubernetesApplicationVersion _ _ _ _).
  - unfold rret.
    rewrite (rbind_done _ _ _ _ _ (requiredInput_given env _ _ Hcu)).
    unfold rbind at 1. rewrite read_if_given_run, files_s_resolved, Hbv.
    unfold rbind at 1, answer. cbn [world actions]. rewrite <- app_assoc.
    by destruct (createKubernetesApplicationVersion _ _ _ _).
Qed.

End Chart.

Local Abbreviation baseValuesPath := (getInput env (js "base-values-file")).

Lemma files_after_optional_read (path : jsstring) :
  files (if nonempty path
         then record_call (ReadCall path) (world s_resolved)
         else world s_resolved)
  = files (world st).
Proof.
  destruct (nonempty path); [unfold record_call; cbn [files]|]; apply files_s_resolved.
Qed.

(** X17.  A version that comes back without an id, or with an empty one, fails
    the step after the version was created, on the compose path and on the
    chart path alike: no output is set and nothing is rolled out, whatever
    [update-deployments] says. *)
Theorem run_version_without_id (version : Version) :
  version_id version = None \/ version_id version = Some [] ->
  (forall composeFile,
     nonempty composePath = true ->
     files (world st) composePath = ReadOk composeFile ->
     createDockerApplicationVersion distr appId versionName
       (Docker.mkParams composeFile templateFile linkTemplate resources)
     = Done version ->
     exists w',
       run env st
       = (Done tt,
          mkRun w'
            (actions st
             ++ [NewService apiBase token;
                 CreateDocker appId versionName
                   (Docker.mkParams composeFile templateFile linkTemplate resources);
                 SetFailed (js "Created version does not have an ID")]))
       /\ files w' = files (world st))
  /\ (forall baseValuesFile,
        composePath = [] ->
        chart_inputs_given env = true ->
        optional_text (files (world st)) baseValuesPath = Done baseValuesFile ->
        createKubernetesApplicationVersion distr appId versionName
          (chart_params env baseValuesFile templateFile linkTemplate resources)
        = Done version ->
        exists w',
          run env st
          = (Done tt,
             mkRun w'
               (actions st
                ++ [NewService apiBase token;
                    CreateKubernetes appId versionName
                      (chart_params env baseValuesFile templateFile linkTemplate
                         resources);
                    SetFailed (js "Created version does not have an ID")]))
          /\ files w' = files (world st)).
Proof.
  intros Hid. split.
  - intros composeFile Hgiven Hread Hcreate.
    eapply created_without_id;
      [apply (create_version_compose composeFile Hgiven Hread)|reflexivity|
       |exact Hcreate|exact Hid].
    unfold record_call. cbn [world files]. apply files_s_resolved.
  - intros baseValuesFile Hnone Hgiven Hbv Hcreate.
    eapply created_without_id;
      [apply (create_version_chart Hnone baseValuesFile Hgiven Hbv)|reflexivity|
       |exact Hcreate|exact Hid].
    cbn [world]. apply files_after_optional_read.
Qed.

(** X21.  When the roll-out fails after a version was created, on the compose
    path or on the chart path, the step is marked failed with the message
    of the backend, but the version stays created and its id stays in the
    output. *)
Theorem run_rollout_failure_keeps_version (c : N) (vid message : jsstring) :
  upd = true ->
  updateAllDeployments distr appId (c :: vid) = Raised (ErrorObject message) ->
  (forall composeFile,
     nonempty composePath = true ->
     files (world st) composePath = ReadOk composeFile ->
     createDockerApplicationVersion distr appId versionName
       (Docker.mkParams composeFile templateFile linkTemplate resources)
     = Done (mkVersion (Some (c :: vid))) ->
     exists w',
       run env st
       = (Done tt,
          mkRun w'
            (actions st
             ++ [NewService apiBase token;
                 CreateDocker appId versionName
                   (Docker.mkParams composeFile templateFile linkTemplate resources);
                 SetOutput (js "created-version-id") (c :: vid);
                 Info RunMsg.updating;
                 UpdateAll appId (c :: vid);
                 SetFailed message]))
       /\ files w' = files (world st))
  /\ (forall baseValuesFile,
        composePath = [] ->
        chart_inputs_given env = true ->
        optional_text (files (world st)) baseValuesPath = Done baseValuesFile ->
        createKubernetesApplicationVersion distr appId versionName
          (chart_params env baseValuesFile templateFile linkTemplate resources)
        = Done (mkVersion (Some (c :: vid))) ->
        exists w',
          run env st
          = (Done tt,
             mkRun w'
               (actions st
                ++ [NewService apiBase token;
                    CreateKubernetes appId versionName
                      (chart_params env baseValuesFile templateFile linkTemplate
                         resources);
                    SetOutput (js "created-version-id") (c :: vid);
                    Info RunMsg.updating;
                    UpdateAll appId (c :: vid);
                    SetFailed message]))
          /\ files w' = files (world st)).
Proof.
  intros Hupd Hroll. split.
  - intros composeFile Hgiven Hread Hcreate.
    eapply created_rollout_failure;
      [apply (create_version_compose composeFile Hgiven Hread)|reflexivity|
       |exact Hupd|exact Hcreate|exact Hroll].
    unfold record_call. cbn [world files]. apply files_s_resolved.
  - intros baseValuesFile Hnone Hgiven Hbv Hcreate.
    eapply created_rollout_failure;
      [apply (create_version_chart Hnone baseValuesFile Hgiven Hbv)|reflexivity|
       |exact Hupd|exact Hcreate|exact Hroll].
    cbn [world]. apply files_after_optional_read.
Qed.

(** X22.  What the backend throws is reported only when it is an [Error]: when
    the creation call, of either kind, rejects with another value the step
    ends without being marked failed, with no output and no roll-out. *)
Theorem run_swallows_non_error :
  (forall composeFile,
     nonempty composePath = true ->
     files (world st) composePath = ReadOk composeFile ->
     createDockerApplicationVersion distr appId versionName
       (Docker.mkParams composeFile templateFile linkTemplate resources)
     = Raised OtherValue ->
     exists w',
       run env st
       = (Done tt,
          mkRun w'
            (actions st
             ++ [NewService apiBase token;
                 CreateDocker appId versionName
                   (Docker.mkParams composeFile templateFile linkTemplate resources)]))
       /\ files w' = files (world st))
  /\ (forall baseValuesFile,
        composePath = [] ->
        chart_inputs_given env = true ->
        optional_text (files (world st)) baseValuesPath = Done baseValuesFile ->
        createKubernetesApplicationVersion distr appId versionName
          (chart_params env baseValuesFile templateFile linkTemplate resources)
        = Raised OtherValue ->
        exists w',
          run env st
          = (Done tt,
             mkRun w'
               (actions st
                ++ [NewService apiBase token;
                    CreateKubernetes appId versionName
                      (chart_params env baseValuesFile templateFile linkTemplate
                         resources)]))
          /\ files w' = files (world st)).
Proof.
  split.
  - intros composeFile Hgiven Hread Hcreate.
    eapply created_non_error;
      [apply (create_version_compose composeFile Hgiven Hread)|reflexivity|
       |exact Hcreate].
    unfold record_call. cbn [world files]. apply files_s_resolved.
  - intros baseValuesFile Hnone Hgiven Hbv Hcreate.
    eapply created_non_error;
      [apply (create_version_chart Hnone baseValuesFile Hgiven Hbv)|reflexivity|
       |exact Hcreate].
    cbn [world]. apply files_after_optional_read.
Qed.

End Resolved.

End Ready.

(** ** The action: the order of its effects *)

Section Protocol.

Variable env : Env.

Lemma same_text_refl (a : jsstring) : same_text a a = true.
Proof. induction a as [|c a IH]; simpl; [done|]. by rewrite N.eqb_refl. Qed.

Lemma follow_app (s : stage) (l1 l2 : list action) :
  follow s (l1 ++ l2)
  = match follow s l1 with
    | Some s' => follow s' l2
    | None => None
    end.
Proof.
  revert s. induction l1 as [|a l1 IH]; intros s; simpl; [done|].
  destruct (next_stage s a); [apply IH|done].
Qed.

Lemma follow_infos (targets : list SkippedTarget) :
  follow Reported (map (fun target => Info (RunMsg.skipped_line target)) targets)
  = Some Reported.
Proof. induction targets as [|target rest IH]; simpl; [done|apply IH]. Qed.

Lemma requiredInput_run (id : jsstring) (s : Run) :
  requiredInput env id s
  = (if nonempty (getInput env id) then Done (getInput env id)
     else Raised (ErrorObject (RunMsg.required id)),
     s).
Proof. unfold requiredInput. by destruct (nonempty (getInput env id)). Qed.

(** A step that ends without any action. *)
Ltac quiet :=
  match goal with
  | s : Run |- _ =>
      eexists (world s), _, []; rewrite app_nil_r; destruct s;
      (split; [reflexivity|split; [reflexivity|by left]])
  end.

(** Creating the version: on success one call to the backend and the
    output, on failure at most the call. *)
Lemma create_version_shape (distr : Service) (appId versionName : jsstring)
    (templateFile linkTemplate : option jsstring)
    (resources : option (list Resource)) (s : Run) :
  exists w' r new,
    create_version env distr appId versionName templateFile linkTemplate resources s
    = (r, mkRun w' (actions s ++ new))
    /\ files w' = files (world s)
    /\ match r with
       | Done versionId => follow WithClient new = Some (Published appId versionId)
       | Raised _ =>
           follow WithClient new = Some WithClient
           \/ follow WithClient new = Some (Created appId)
       end.
Proof.
  unfold create_version.
  destruct (nonempty (getInput env (js "compose-file"))).
  - unfold rbind at 1. rewrite read_text_run.
    destruct (file_text _ _) as [composeFile|e].
    + unfold rbind at 1, answer. cbn [world actions].
      destruct (createDockerApplicationVersion _ _ _ _) as [version|e].
      * rewrite publish_id_run. cbn [world actions].
        destruct (version_id version) as [[|c vid]|].
        -- eexists _, _, [_]. split; [reflexivity|]. split; [done|]. by right.
        -- eexists _, _, [_; _]. split; [by rewrite <- app_assoc|]. split; [done|].
           reflexivity.
        -- eexists _, _, [_]. split; [reflexivity|]. split; [done|]. by right.
      * eexists _, _, [_]. split; [reflexivity|]. split; [done|]. by right.
    + eexists _, _, []. rewrite app_nil_r. split; [reflexivity|]. split; [done|].
      by left.
  - unfold rbind at 1. rewrite requiredInput_run.
    destruct (nonempty (getInput env (js "chart-version"))); [|quiet].
    unfold rbind at 1. rewrite requiredInput_run.
    destruct (nonempty (getInput env (js "chart-type"))); [|quiet].
    unfold rbind at 1.
    assert (exists chartName,
      (if same_text (getInput env (js "chart-type")) (js "repository")
       then rbind (requiredInput env (js "chart-name")) (fun n => rret (Some n))
       else rret None) s
      = (Raised (ErrorObject (RunMsg.required (js "chart-name"))), s)
      \/ (if same_text (getInput env (js "chart-type")) (js "repository")
          then rbind (requiredInput env (js "chart-name")) (fun n => rret (Some n))
          else rret None) s
         = (Done chartName, s)) as (chartName & [-> | ->]).
    { destruct (same_text _ _); [|by exists None; right].
      unfold rbind. rewrite requiredInput_run.
      destruct (nonempty (getInput env (js "chart-name")));
        [by eexists; right|by exists None; left]. }
    { quiet. }
    unfold rbind at 1. rewrite requiredInput_run.
    destruct (nonempty (getInput env (js "chart-url"))); [|quiet].
    unfold rbind at 1. rewrite read_if_given_run.
    assert (files (if nonempty (getInput env (js "base-values-file"))
                   then record_call (ReadCall (getInput env (js "base-values-file")))
                          (world s)
                   else world s) = files (world s)) as Hfiles
      by (by destruct (nonempty _)).
    destruct (optional_text _ _) as [baseValuesFile|e].
    + unfold rbind at 1, answer. cbn [world actions].
      destruct (createKubernetesApplicationVersion _ _ _ _) as [version|e].
      * rewrite publish_id_run. cbn [world actions].
        destruct (version_id version) as [[|c vid]|].
        -- eexists _, _, [_]. split; [reflexivity|]. split; [done|]. by right.
        -- eexists _, _, [_; _]. split; [by rewrite <- app_assoc|]. split; [done|].
           reflexivity.
        -- eexists _, _, [_]. split; [reflexivity|]. split; [done|]. by right.
      * eexists _, _, [_]. split; [reflexivity|]. split; [done|]. by right.
    + eexists _, _, []. rewrite app_nil_r. split; [reflexivity|].
      split; [done|by left].
Qed.

(** The body of [run]: its actions follow the automaton, to a stage where
    the body may return or may throw. *)
Lemma run_body_shape (s : Run) :
  exists w' r new,
    run_body env s = (r, mkRun w' (actions s ++ new))
    /\ files w' = files (world s)
    /\ exists sg,
         follow AtStart new = Some sg
         /\ match r with
            | Done _ => may_end sg = true
            | Raised _ => may_throw sg = true
            end.
Proof.
  assert (forall (e : thrown),
    exists w' (r : result unit) new,
      (Raised e, s) = (r, mkRun w' (actions s ++ new))
      /\ files w' = files (world s)
      /\ exists sg,
           follow AtStart new = Some sg
           /\ match r with
              | Done _ => may_end sg = true
              | Raised _ => may_throw sg = true
              end) as Hquiet.
  { intros e. eexists (world s), _, []. rewrite app_nil_r. destruct s.
    split; [reflexivity|]. split; [reflexivity|]. by exists AtStart. }
  unfold run_body.
  unfold rbind at 1. rewrite requiredInput_run.
  destruct (nonempty (getInput env (js "api-token"))); [|apply Hquiet].
  cbv beta zeta.
  unfold rbind at 1. rewrite requiredInput_run.
  destruct (nonempty (getInput env (js "application-id"))); [|apply Hquiet].
  unfold rbind at 1. rewrite requiredInput_run.
  destruct (nonempty (getInput env (js "version-name"))); [|apply Hquiet].
  unfold rbind at 1.
  destruct (getBooleanInput env (js "update-deployments")) as [upd|e]; [|apply Hquiet].
  clear Hquiet.
  unfold rbind at 1, answer.
  destruct (DistrService env _ _) as [distr|e].
  2:{ eexists _, _, [_]. split; [reflexivity|]. split; [reflexivity|].
      by exists WithClient. }
  unfold rbind at 1. rewrite read_if_given_run. cbn [world actions].
  assert (files (if nonempty (getInput env (js "template-file"))
                 then record_call (ReadCall (getInput env (js "template-file")))
                        (world s)
                 else world s) = files (world s)) as Hfiles
    by (by destruct (nonempty _)).
  destruct (optional_text _ _) as [templateFile|e].
  2:{ eexists _, _, [_]. split; [reflexivity|]. split; [done|]. by exists WithClient. }
  unfold rbind at 1. rewrite lift_run. cbn [world actions].
  match goal with
  | |- context [parseAndResolveResources ?input ?w] =>
      pose proof (files_after_resolve input w) as Hfiles';
      destruct (parseAndResolveResources input w) as [[resources|msg] w1]
  end; cbn [fst snd to_result] in *.
  2:{ eexists _, _, [_]. split; [reflexivity|]. split; [congruence|].
      by exists WithClient. }
  unfold rbind at 1.
  destruct (create_version_shape distr (getInput env (js "application-id"))
              (getInput env (js "version-name")) templateFile
              (or_undefined (getInput env (js "link-template"))) resources
              (mkRun w1 (actions s ++ [NewService
                                         (or_undefined (getInput env (js "api-base")))
                                         (getInput env (js "api-token"))])))
    as (w2 & r & new & -> & Hfiles2 & Hshape).
  cbn [world actions] in *.
  destruct r as [versionId|e].
  2:{ eexists _, _, (_ :: new). split; [by rewrite <- app_assoc|].
      split; [congruence|]. cbn [follow next_stage].
      destruct Hshape as [-> | ->]; by eexists. }
  destruct upd.
  - rewrite update_deployments_run. cbn [world actions].
    destruct (updateAllDeployments distr _ versionId) as [result|e].
    + eexists _, _, (_ :: new ++ _). split; [by rewrite <- !app_assoc|].
      split; [congruence|]. exists Reported. split; [|done].
      cbn [follow next_stage]. rewrite follow_app, Hshape.
      cbn [app follow next_stage]. rewrite !same_text_refl. cbn [andb follow next_stage].
      destruct (skippedTargets result) as [|target rest]; [done|].
      cbn [follow next_stage]. apply follow_infos.
    + eexists _, _, (_ :: new ++ _). split; [by rewrite <- !app_assoc|].
      split; [congruence|]. exists RolledOut. split; [|done].
      cbn [follow next_stage]. rewrite follow_app, Hshape.
      cbn [app follow next_stage]. by rewrite !same_text_refl.
  - eexists _, _, (_ :: new). split; [by rewrite <- app_assoc|].
    split; [congruence|]. cbn [follow next_stage]. rewrite Hshape. by eexists.
Qed.

(** X23.  Whatever the inputs, the files and the backend do, [run] returns
    without throwing and leaves the files as they were, and its actions
    come in one order: the client is built, then at most one version is
    created, its id is set as output only after the creation and only when
    it is not empty, the roll-out is called only for that id and that
    application and only after the output, and a failure is the last
    thing the step reports. *)
Theorem run_follows_protocol (st : Run) :
  exists w' new,
    run env st = (Done tt, mkRun w' (actions st ++ new))
    /\ files w' = files (world st)
    /\ follows_protocol new = true.
Proof.
  destruct (run_body_shape st) as (w' & r & new & E & Hfiles & sg & Hfollow & Hend).
  unfold run, try_catch. rewrite E. unfold follows_protocol.
  destruct r as [[]|[message|]].
  - exists w', new. by rewrite Hfollow.
  - exists w', (new ++ [SetFailed message]). unfold emit. cbn [world actions].
    rewrite <- app_assoc. split; [done|]. split; [done|].
    rewrite follow_app, Hfollow. by destruct sg.
  - exists w', new. rewrite Hfollow. split; [done|]. split; [done|]. by destruct sg.
Qed.

Lemma follow_counts (new : list action) :
  forall s s',
    follow s new = Some s' ->
    (count_if is_create new <= creates_left s)%nat
    /\ (count_if is_output new <= count_if is_create new + outputs_due s)%nat
    /\ (count_if is_update new <= count_if is_output new + updates_due s)%nat
    /\ (count_if is_failed new <= failures_left s)%nat.
Proof.
  induction new as [|a rest IH]; intros s s' H; [simpl; by destruct s; lia|].
  cbn [follow] in H.
  destruct (next_stage s a) as [s1|] eqn:E; [|discriminate].
  apply IH in H as (H1 & H2 & H3 & H4). clear IH.
  destruct s, a; cbn [next_stage] in E; try discriminate;
    repeat match type of E with
           | (if ?c then _ else _) = _ => destruct c; try discriminate
           end;
    injection E as <-; simpl in *; lia.
Qed.

Lemma follow_failed_last (new : list action) (message : jsstring) :
  forall s s',
    follow s new = Some s' ->
    In (SetFailed message) new ->
    exists before, new = before ++ [SetFailed message].
Proof.
  induction new as [|a rest IH]; intros s s' H Hin; [by destruct Hin|].
  cbn [follow] in H.
  destruct (next_stage s a) as [s1|] eqn:E; [|discriminate].
  destruct (is_failed a) eqn:Ha.
  - destruct a; try discriminate.
    assert (s1 = HasFailed) as -> by (destruct s; simpl in E; congruence).
    destruct rest as [|b rest']; [|by destruct b].
    destruct Hin as [[= ->]|[]]. by exists [].
  - destruct Hin as [->|Hin]; [discriminate|].
    destruct (IH s1 s' H Hin) as (before & ->). by exists (a :: before).
Qed.

(** X24.  In plain terms: one run creates at most one version, sets the output at
    most once and only after a creation, calls the roll-out at most once
    and only after the output, and fails at most once, with the failure as
    its last action. *)
Theorem run_effects_bounded (st : Run) :
  exists w' new,
    run env st = (Done tt, mkRun w' (actions st ++ new))
    /\ (count_if is_create new <= 1)%nat
    /\ (count_if is_output new <= count_if is_create new)%nat
    /\ (count_if is_update new <= count_if is_output new)%nat
    /\ (count_if is_failed new <= 1)%nat
    /\ forall message,
         In (SetFailed message) new ->
         exists before, new = before ++ [SetFailed message].
Proof.
  destruct (run_body_shape st) as (w' & r & new & E & _ & sg & Hfollow & Hend).
  assert (exists new',
    run env st = (Done tt, mkRun w' (actions st ++ new'))
    /\ exists sg', follow AtStart new' = Some sg') as (new' & Hrun & sg' & Hf).
  { unfold run, try_catch. rewrite E. destruct r as [[]|[message|]].
    - exists new. split; [done|]. by exists sg.
    - exists (new ++ [SetFailed message]). unfold emit. cbn [world actions].
      rewrite <- app_assoc. split; [done|].
      rewrite follow_app, Hfollow. destruct sg; try discriminate; by eexists.
    - exists new. split; [done|]. by exists sg. }
  exists w', new'. split; [done|].
  destruct (follow_counts new' AtStart sg' Hf) as (H1 & H2 & H3 & H4).
  simpl in *. repeat split; try lia.
  intros message Hin. by apply (follow_failed_last new' message AtStart sg').
Qed.

End Protocol.

(** ** The action: examples *)

Lemma run_stops_at_missing_input_witness :
  run (env_of [(js "api-token", js "tok"); (js "version-name", js "1.0")]
         (Done true) backend) start
  = (Done tt,
     mkRun (world start) [SetFailed (js "Input application-id is required")]).
Proof.
  rewrite (run_stops_at_missing_input _ start (js "application-id"));
    [by_evaluation| |by_evaluation].
  right; left. split; by_evaluation.
Defined.

Lemma update_deployments_report_witness :
  actions (snd (update_deployments backend (js "app") (js "v1") start))
  = [Info (js "Updating all deployments to the new version...");
     UpdateAll (js "app") (js "v1");
     Info (js "Updated 2 deployment target(s)");
     Info (js "Skipped 1 deployment target(s):");
     Info (js "  - t3: locked")].
Proof.
  destruct (update_deployments_report backend (js "app") (js "v1") start) as [H _].
  rewrite (H rollout); by_evaluation.
Defined.

Lemma run_invalid_resources_creates_nothing_witness :
  actions (snd (run (env_of bad_resources_inputs (Done true) backend) start))
  = [NewService None (js "tok");
     SetFailed (q "Resource [0] 'a': specify either 'content' or 'path', not both")].
Proof.
  edestruct (run_invalid_resources_creates_nothing
               (env_of bad_resources_inputs (Done true) backend) start backend true)
    as (w' & E & _); [by_evaluation..|].
  rewrite E. by_evaluation.
Defined.

Lemma run_compose_path_witness :
  actions (snd (run (env_of docker_inputs (Done false) backend) start))
  = [NewService None (js "tok");
     CreateDocker (js "app") (js "1.0")
       (Docker.mkParams (js "from file") None None
          (Some [mkResource (js "a") (js "hello") true]));
     SetOutput (js "created-version-id") (js "v-docker")].
Proof.
  edestruct (run_compose_path (env_of docker_inputs (Done false) backend) start
               backend false) as (w' & E & _); [by_evaluation..|].
  rewrite E. by_evaluation.
Defined.

Lemma run_version_without_id_witness :
  actions (snd (run (env_of docker_inputs (Done true) backend_no_id) start))
  = [NewService None (js "tok");
     CreateDocker (js "app") (js "1.0")
       (Docker.mkParams (js "from file") None None
          (Some [mkResource (js "a") (js "hello") true]));
     SetFailed (js "Created version does not have an ID")]
  /\ actions (snd (run (env_of chart_inputs (Done true) backend_no_id) start))
     = [NewService None (js "tok");
        CreateKubernetes (js "app") (js "1.0")
          (Kubernetes.mkParams None (js "2.1") (js "oci") (js "oci://r/c") None None
             None None);
        SetFailed (js "Created version does not have an ID")].
Proof.
  split.
  - edestruct (run_version_without_id (env_of docker_inputs (Done true) backend_no_id)
                 start backend_no_id true)
      with (version := mkVersion None) as [Hdocker _];
      [by_evaluation..|by left|].
    edestruct Hdocker as (w' & E & _); [by_evaluation..|].
    rewrite E. by_evaluation.
  - edestruct (run_version_without_id (env_of chart_inputs (Done true) backend_no_id)
                 start backend_no_id true)
      with (version := mkVersion (Some [])) as [_ Hchart];
      [by_evaluation..|by right|].
    edestruct Hchart as (w' & E & _); [by_evaluation..|].
    rewrite E. by_evaluation.
Defined.

Lemma run_rollout_failure_keeps_version_witness :
  actions (snd (run (env_of docker_inputs (Done true) backend_no_rollout) start))
  = [NewService None (js "tok");
     CreateDocker (js "app") (js "1.0")
       (Docker.mkParams (js "from file") None None
          (Some [mkResource (js "a") (js "hello") true]));
     SetOutput (js "created-version-id") (js "v-docker");
     Info (js "Updating all deployments to the new version...");
     UpdateAll (js "app") (js "v-docker");
     SetFailed (js "503")]
  /\ actions (snd (run (env_of chart_inputs (Done true) backend_no_rollout) start))
     = [NewService None (js "tok");
        CreateKubernetes (js "app") (js "1.0")
          (Kubernetes.mkParams None (js "2.1") (js "oci") (js "oci://r/c") None None
             None None);
        SetOutput (js "created-version-id") (js "v-chart");
        Info (js "Updating all deployments to the new version...");
        UpdateAll (js "app") (js "v-chart");
        SetFailed (js "503")].
Proof.
  split.
  - edestruct (run_rollout_failure_keeps_version
                 (env_of docker_inputs (Done true) backend_no_rollout) start
                 backend_no_rollout true)
      with (c := 118) (vid := js "-docker") (message := js "503") as [Hdocker _];
      [by_evaluation..|].
    edestruct Hdocker as (w' & E & _); [by_evaluation..|].
    rewrite E. by_evaluation.
  - edestruct (run_rollout_failure_keeps_version
                 (env_of chart_inputs (Done true) backend_no_rollout) start
                 backend_no_rollout true)
      with (c := 118) (vid := js "-chart") (message := js "503") as [_ Hchart];
      [by_evaluation..|].
    edestruct Hchart as (w' & E & _); [by_evaluation..|].
    rewrite E. by_evaluation.
Defined.

Lemma run_swallows_non_error_witness :
  (fst (run (env_of docker_inputs (Done true) backend_odd) start) = Done tt
   /\ actions (snd (run (env_of docker_inputs (Done true) backend_odd) start))
      = [NewService None (js "tok");
         CreateDocker (js "app") (js "1.0")
           (Docker.mkParams (js "from file") None None
              (Some [mkResource (js "a") (js "hello") true]))])
  /\ fst (run (env_of chart_inputs (Done true) backend_odd) start) = Done tt
  /\ actions (snd (run (env_of chart_inputs (Done true) backend_odd) start))
     = [NewService None (js "tok");
        CreateKubernetes (js "app") (js "1.0")
          (Kubernetes.mkParams None (js "2.1") (js "oci") (js "oci://r/c") None None
             None None)].
Proof.
  split.
  - edestruct (run_swallows_non_error (env_of docker_inputs (Done true) backend_odd)
                 start backend_odd true) as [Hdocker _]; [by_evaluation..|].
    edestruct Hdocker as (w' & E & _); [by_evaluation..|].
    rewrite E. by_evaluation.
  - edestruct (run_swallows_non_error (env_of chart_inputs (Done true) backend_odd)
                 start backend_odd true) as [_ Hchart]; [by_evaluation..|].
    edestruct Hchart as (w' & E & _); [by_evaluation..|].
    rewrite E. by_evaluation.
Defined.

Lemma chart_inputs_required_witness :
  actions (snd (run (env_of repository_inputs (Done false) backend) start))
  = [NewService None (js "tok"); SetFailed (js "Input chart-name is required")].
Proof.
  edestruct (chart_inputs_required (env_of repository_inputs (Done false) backend)
               start backend false ltac:(by_evaluation) ltac:(by_evaluation)
               ltac:(by_evaluation) ltac:(by_evaluation) ltac:(by_evaluation)
               None None ltac:(by_evaluation) ltac:(by_evaluation)
               ltac:(by_evaluation) (js "chart-name"))
    as (w' & E & _).
  - right; right; left. repeat split; by_evaluation.
  - by_evaluation.
  - rewrite E. by_evaluation.
Defined.

Lemma run_chart_path_witness :
  actions (snd (run (env_of chart_inputs (Done false) backend) start))
  = [NewService None (js "tok");
     CreateKubernetes (js "app") (js "1.0")
       (Kubernetes.mkParams None (js "2.1") (js "oci") (js "oci://r/c") None None None
          None);
     SetOutput (js "created-version-id") (js "v-chart")].
Proof.
  edestruct (run_chart_path (env_of chart_inputs (Done false) backend) start
               backend false) as (w' & E & _); [by_evaluation..|].
  rewrite E. by_evaluation.
Defined.

Lemma run_follows_protocol_witness :
  follows_protocol
    (actions (snd (run (env_of docker_inputs (Done true) backend) start))) = true.
Proof.
  destruct (run_follows_protocol (env_of docker_inputs (Done true) backend) start)
    as (w' & new & E & _ & H).
  rewrite E. exact H.
Defined.

Lemma run_effects_bounded_witness :
  (count_if is_create
     (actions (snd (run (env_of docker_inputs (Done true) backend) start))) <= 1)%nat.
Proof.
  destruct (run_effects_bounded (env_of docker_inputs (Done true) backend) start)
    as (w' & new & E & H & _).
  rewrite E. exact H.
Defined.

Lemma run_bad_flag_witness :
  run (env_of docker_inputs (Raised (ErrorObject (js "not a boolean"))) backend) start
  = (Done tt, mkRun (world start) [SetFailed (js "not a boolean")]).
Proof.
  rewrite (run_bad_flag _ start (js "not a boolean")); by_evaluation.
Defined.

Lemma run_unreadable_template_witness :
  run (env_of missing_template_inputs (Done true) backend) start
  = (Done tt,
     mkRun (mkWorld (files w0) [ReadCall (js "tpl.txt")])
       [NewService None (js "tok");
        SetFailed (js "ENOENT: no such file or directory")]).
Proof.
  rewrite (run_unreadable_template (env_of missing_template_inputs (Done true) backend)
             start backend true ltac:(by_evaluation) ltac:(by_evaluation)
             ltac:(by_evaluation) ltac:(by_evaluation) ltac:(by_evaluation)
             (js "ENOENT: no such file or directory")); by_evaluation.
Defined.

Lemma run_unreadable_compose_file_witness :
  actions (snd (run (env_of missing_compose_inputs (Done true) backend) start))
  = [NewService None (js "tok");
     SetFailed (js "ENOENT: no such file or directory")].
Proof.
  edestruct (run_unreadable_compose_file
               (env_of missing_compose_inputs (Done true) backend) start backend true)
    as (w' & E & _); [by_evaluation..|].
  rewrite E. by_evaluation.
Defined.
